(** * Embeddings.ipynb: similarity ranking over embedding vectors

    A shallow embedding of the three ranking functions of the notebook
    ([search_reviews], [search_functions], [recommendations_from_strings])
    together with the library calls they are made of.

    - Python floats and [np.float64] are IEEE 754 binary64 numbers: Rocq's
      primitive [float], with the kernel's specification of its operations.
    - A Python exception is a value of [PyError]; a computation that may
      raise returns a [result].
    - The data frame [df] is a mutable object shared with the caller:
      [search_reviews] and [search_functions] return the frame as it is left
      behind together with their outcome.
    - The embedding service ([get_embedding], [embedding_from_string]) and
      the sorting kernel behind [ndarray.argsort] live outside the notebook:
      they are the variables of [Section Notebook]; the sorting kernel is
      used only through the contract [argsort_spec] and, where the order
      of equal keys matters, through [argsort_stable]. *)

From Stdlib Require Import String.
From Stdlib Require Import List ZArith Lia Bool Floats.
From Stdlib Require Import Sorting.Permutation Sorting.Sorted.
Import ListNotations.

(** ** Exceptions *)

Inductive PyError : Type :=
| ValueError   (* numpy: shapes (n,) and (m,) not aligned *)
| IndexError.  (* list index out of range *)

Inductive result (A : Type) : Type :=
| Ok (a : A)
| Raise (e : PyError).

Arguments Ok {A} a.
Arguments Raise {A} e.

Definition bind {A B : Type} (m : result A) (k : A -> result B) : result B :=
  match m with
  | Ok a => k a
  | Raise e => Raise e
  end.

Notation "x <- m ;; k" := (bind m (fun x => k))
  (at level 61, m at next level, right associativity).

(** [[f(x) for x in xs]]: the calls are made from left to right and the
    first exception ends the comprehension. *)
Fixpoint mapM {A B : Type} (f : A -> result B) (xs : list A) : result (list B) :=
  match xs with
  | [] => Ok []
  | x :: xs' => y <- f x ;; ys <- mapM f xs' ;; Ok (y :: ys)
  end.

(** ** numpy *)

Definition vector : Type := list float.

Module np.

(** [np.dot(a, b)] on two one-dimensional arrays: the inner product, and
    [ValueError] when the lengths differ.  The products are accumulated
    from left to right. *)
Definition inner (a b : vector) : float :=
  fold_left (fun acc xy => (acc + fst xy * snd xy)%float) (combine a b) 0%float.

Definition dot (a b : vector) : result float :=
  if Nat.eqb (length a) (length b) then Ok (inner a b) else Raise ValueError.

(** [np.linalg.norm(x)] of a one-dimensional array: [sqrt(dot(x, x))]. *)
Definition linalg_norm (x : vector) : float := sqrt (inner x x).

(** [np.clip(x, lo, hi)] on a scalar; a NaN stays a NaN. *)
Definition clip (x lo hi : float) : float :=
  if is_nan x then x
  else if (x <? lo)%float then lo
  else if (hi <? x)%float then hi
  else x.

(** [a[idx]] with an integer index array. *)
Definition take {A : Type} (d : A) (a : list A) (idx : list nat) : list A :=
  map (fun i => nth i a d) idx.

(** The order in which numpy sorts floats: ascending, NaN after every
    number. *)
Definition sort_le (x y : float) : bool := is_nan y || (x <=? y)%float.

End np.

(** [x] may stand before [y] in a ranking by descending similarity that
    puts the NaN last (pandas' [ascending=False, na_position="last"]). *)
Definition ranks_before (x y : float) : bool := is_nan y || (y <=? x)%float.

(** The contract of [ndarray.argsort(kind="quicksort")], numpy's default
    sorting kernel: the result holds each position of [a] once and reads
    [a] in ascending order.  Nothing is promised about the order of equal
    keys (only [kind="stable"] promises that). *)
Definition argsort_spec (argsort : list float -> list nat) : Prop :=
  forall a : list float,
    Permutation (argsort a) (seq 0 (length a)) /\
    StronglySorted (fun x y => np.sort_le x y = true) (np.take nan a (argsort a)).

(** A kernel that, beyond the contract, keeps equal keys in the order they
    have in [a] (what [kind="stable"] promises): the result is sorted by
    key and, among equal keys, by position. *)
Definition argsort_stable (argsort : list float -> list nat) : Prop :=
  forall a : list float,
    StronglySorted
      (fun i j => np.sort_le (nth i a nan) (nth j a nan) = true /\
                  (np.sort_le (nth j a nan) (nth i a nan) = true -> i < j))
      (argsort a).

(** ** openai.embeddings_utils and scipy

    The notebook imports these functions; they are given here with the
    bodies they have in the libraries. *)

(** [cosine_similarity(a, b)]:
    [np.dot(a, b) / (np.linalg.norm(a) * np.linalg.norm(b))]. *)
Definition cosine_similarity (a b : vector) : result float :=
  d <- np.dot a b ;;
  Ok (d / (np.linalg_norm a * np.linalg_norm b))%float.

(** The distance that [cosine_similarity] induces. *)
Definition cosine_distance (a b : vector) : result float :=
  s <- cosine_similarity a b ;; Ok (1 - s)%float.

(** [scipy.spatial.distance.cosine(u, v)]:
    [np.clip(1.0 - dot(u, v) / sqrt(dot(u, u) * dot(v, v)), 0.0, 2.0)]. *)
Definition spatial_distance_cosine (u v : vector) : result float :=
  uv <- np.dot u v ;;
  Ok (np.clip (1 - uv / sqrt (np.inner u u * np.inner v v)) 0 2)%float.

(** [distances_from_embeddings(query_embedding, embeddings,
    distance_metric="cosine")]. *)
Definition distances_from_embeddings
    (query_embedding : vector) (embeddings : list vector) : result (list float) :=
  mapM (fun embedding => spatial_distance_cosine query_embedding embedding) embeddings.

(** ** pandas *)

(** One row of the data frame: its index label, the text it was embedded
    from, the two embedding columns the notebook reads and the column it
    writes ([None]: the frame has no such column yet). *)
Record Row : Type := mkRow {
  label : string;
  text : string;
  ada_embedding : vector;
  code_embedding : vector;
  similarities : option float
}.

Definition DataFrame : Type := list Row.

Definition empty_row : Row := mkRow EmptyString EmptyString [] [] None.

(** [df['similarities'] = values], the values given in row order. *)
Definition set_similarities (df : DataFrame) (values : list float) : DataFrame :=
  map (fun rv : Row * float =>
         let (r, v) := rv in
         mkRow (label r) (text r) (ada_embedding r) (code_embedding r) (Some v))
      (combine df values).

(** The values of the column [similarities]; a missing value is a NaN. *)
Definition similarity (r : Row) : float :=
  match similarities r with
  | Some v => v
  | None => nan
  end.

(** [df.head(n)]: the first [n] rows, and for a negative [n] all rows but
    the last [-n]. *)
Definition head {A : Type} (n : Z) (df : list A) : list A :=
  if (0 <=? n)%Z then firstn (Z.to_nat n) df
  else firstn (length df - Z.to_nat (- n)) df.

(** The parameter [n=3]: [None] is a call that does not pass it. *)
Definition default_n (n : option Z) : Z :=
  match n with
  | Some n => n
  | None => 3%Z
  end.

(** Python's [xs[i]] on a list: a negative index counts from the end. *)
Definition getitem {A : Type} (xs : list A) (i : Z) : result A :=
  let len := Z.of_nat (length xs) in
  let j := if (i <? 0)%Z then (i + len)%Z else i in
  if ((0 <=? j) && (j <? len))%Z then
    match nth_error xs (Z.to_nat j) with
    | Some x => Ok x
    | None => Raise IndexError
    end
  else Raise IndexError.

Section Notebook.

(** [get_embedding(text, model='text-embedding-3-small')] and
    [embedding_from_string(string, model=model)]: the answer of the
    embedding service, a function of the text. *)
Variable get_embedding : string -> vector.
Variable embedding_from_string : string -> vector.

(** [ndarray.argsort(kind="quicksort")]. *)
Variable argsort : list float -> list nat.

(** [pandas.core.sorting.nargsort(items, kind="quicksort",
    ascending=False, na_position="last")]. *)
Definition nargsort_desc (items : list float) : list nat :=
  let idx := seq 0 (length items) in
  let non_nan_idx := filter (fun i => negb (is_nan (nth i items nan))) idx in
  let nan_idx := filter (fun i => is_nan (nth i items nan)) idx in
  let non_nans := rev (np.take nan items non_nan_idx) in
  let non_nan_idx := rev non_nan_idx in
  let indexer := rev (np.take 0 non_nan_idx (argsort non_nans)) in
  indexer ++ nan_idx.

(** [df.sort_values('similarities', ascending=False)]: a new frame. *)
Definition sort_values_similarities_desc (df : DataFrame) : DataFrame :=
  np.take empty_row df (nargsort_desc (map similarity df)).

(** [indices_of_nearest_neighbors_from_distances(distances)]:
    [np.argsort(distances)]. *)
Definition indices_of_nearest_neighbors_from_distances
    (distances : list float) : list nat :=
  argsort distances.

(** [search_reviews(df, product_description, n=3, pprint=True)]; [pprint]
    is not read by the body.  The first component of the result is the
    caller's frame after the call, the second what the call returns or
    raises. *)
Definition search_reviews (df : DataFrame) (product_description : string)
    (n : option Z) : DataFrame * result DataFrame :=
  let n := default_n n in
  let embedding := get_embedding product_description in
  (* df['similarities'] = df.ada_embedding.apply(lambda x: ...) *)
  match mapM (fun x => cosine_similarity x embedding) (map ada_embedding df) with
  | Raise e => (df, Raise e)
  | Ok values =>
      let df := set_similarities df values in
      (* res = df.sort_values('similarities', ascending=False).head(n) *)
      let res := head n (sort_values_similarities_desc df) in
      (df, Ok res)
  end.

(** [search_functions(df, code_query, n=3, pprint=True, n_lines=7)];
    [pprint] and [n_lines] are not read by the body. *)
Definition search_functions (df : DataFrame) (code_query : string)
    (n : option Z) : DataFrame * result DataFrame :=
  let n := default_n n in
  let embedding := get_embedding code_query in
  (* df['similarities'] = df.code_embedding.apply(lambda x: ...) *)
  match mapM (fun x => cosine_similarity x embedding) (map code_embedding df) with
  | Raise e => (df, Raise e)
  | Ok values =>
      let df := set_similarities df values in
      (* res = df.sort_values('similarities', ascending=False).head(n) *)
      let res := head n (sort_values_similarities_desc df) in
      (df, Ok res)
  end.

(** The two bodies with the embedding column they read taken out: what
    is proved of [search] holds of both. *)
Definition search (column : Row -> vector)
    (df : DataFrame) (query : string) (n : option Z)
    : DataFrame * result DataFrame :=
  let n := default_n n in
  let embedding := get_embedding query in
  match mapM (fun x => cosine_similarity x embedding) (map column df) with
  | Raise e => (df, Raise e)
  | Ok values =>
      let df := set_similarities df values in
      let res := head n (sort_values_similarities_desc df) in
      (df, Ok res)
  end.

(** [recommendations_from_strings(strings, index_of_source_string,
    model)]. *)
Definition recommendations_from_strings
    (strings : list string) (index_of_source_string : Z) : result (list nat) :=
  let embeddings := map embedding_from_string strings in
  query_embedding <- getitem embeddings index_of_source_string ;;
  distances <- distances_from_embeddings query_embedding embeddings ;;
  Ok (indices_of_nearest_neighbors_from_distances distances).

(** The distances that [recommendations_from_strings] ranks: the second
    and third statement of its body. *)
Definition source_distances
    (strings : list string) (index_of_source_string : Z) : result (list float) :=
  let embeddings := map embedding_from_string strings in
  query_embedding <- getitem embeddings index_of_source_string ;;
  distances_from_embeddings query_embedding embeddings.

End Notebook.

(** The statement of the code-search cell that fills the column the search
    reads: [df['code_embedding'] = df['code'].apply(lambda x:
    get_embedding(x, model='text-embedding-3-small'))].  The column [code]
    is the field [text] of a row. *)
Definition embed_code (get_embedding : string -> vector) (df : DataFrame)
    : DataFrame :=
  map (fun r => mkRow (label r) (text r) (ada_embedding r)
                      (get_embedding (text r)) (similarities r))
      df.

(** ** A sorting kernel that meets the contract *)

Section InsertionSort.

Variable key : nat -> float.
Variable before : float -> float -> bool.

Fixpoint insert (i : nat) (l : list nat) : list nat :=
  match l with
  | [] => [i]
  | j :: l' => if before (key i) (key j) then i :: l else j :: insert i l'
  end.

Definition isort (l : list nat) : list nat := fold_right insert [] l.

End InsertionSort.

(** Insertion sort, the base case of numpy's quicksort: equal keys keep
    their order. *)
Definition insertion_argsort (a : list float) : list nat :=
  isort (fun i => nth i a nan) np.sort_le (seq 0 (length a)).

(** ** Rankings and example data *)

(** The similarities of a result, best first and the NaN last. *)
Definition descending (l : list float) : Prop :=
  StronglySorted (fun x y => ranks_before x y = true) l.

(** A candidate before it is ranked, and as a result lists it. *)
Definition candidate (l : string) (v : vector) : Row := mkRow l "" v v None.

Definition ranked (l : string) (v : vector) (s : float) : Row :=
  mkRow l "" v v (Some s).

(** An embedding service that answers [[1, 0]] for the text "query". *)
Definition example_embedding (s : string) : vector :=
  if String.eqb s "query" then [1; 0]%float else [].

(** An embedding service for three strings. *)
Definition example_embedding_from_string (s : string) : vector :=
  if String.eqb s "a" then [1; 0]%float
  else if String.eqb s "b" then [0; 1]%float
  else [1; 1]%float.

(** An embedding service that answers the parallel vectors [[3, 3]] for
    "p" and [[1, 1]] for every other string. *)
Definition parallel_embedding_from_string (s : string) : vector :=
  if String.eqb s "p" then [3; 3]%float else [1; 1]%float.

Definition example_df : DataFrame :=
  [candidate "a" [1; 0]%float; candidate "b" [0; 1]%float; candidate "c" [1; 1]%float].

Definition four_df : DataFrame :=
  example_df ++ [candidate "d" [1; 2]%float].

(** Two candidates with the vector of the query. *)
Definition tie_df : DataFrame :=
  [candidate "a" [1; 0]%float; candidate "b" [1; 0]%float].

(** * Floating-point order

    The comparisons of primitive floats, read through the kernel's
    specification [SFcompare]. *)

Definition sf_is_nan (x : spec_float) : bool :=
  match x with
  | S754_nan => true
  | _ => false
  end.

Definition sf_le (x y : spec_float) : bool := sf_is_nan y || SFleb x y.

(** The floats that [0 * y] and [0 + 0] can be: a zero of either sign, or
    a NaN. *)
Definition sf_zero_or_nan (x : spec_float) : bool :=
  match x with
  | S754_zero _ | S754_nan => true
  | _ => false
  end.

Definition zero_or_nan (x : float) : bool := sf_zero_or_nan (Prim2SF x).

(** A vector whose entries are all [0.0] or [-0.0]. *)
Definition all_zero (a : vector) : Prop := Forall (fun x => is_zero x = true) a.

Ltac cmp_cases :=
  repeat match goal with
  | |- context [Z.compare ?a ?b] => destruct (Z.compare_spec a b)
  | H : context [Z.compare ?a ?b] |- _ => destruct (Z.compare_spec a b)
  | |- context [Pos.compare ?a ?b] => destruct (Pos.compare_spec a b)
  | H : context [Pos.compare ?a ?b] |- _ => destruct (Pos.compare_spec a b)
  end.

Ltac sf_cases x := destruct x as [[|]|[|]| |[|] ? ?].

Lemma SFeqb_refl (x : spec_float) : SFeqb x x = negb (sf_is_nan x).
Proof.
  unfold SFeqb, SFcompare.
  change (Pos.compare_cont Eq) with Pos.compare.
  sf_cases x; simpl; try reflexivity;
    rewrite Z.compare_refl, Pos.compare_refl; reflexivity.
Qed.

Lemma SFleb_trans (x y z : spec_float) :
  SFleb x y = true -> SFleb y z = true -> SFleb x z = true.
Proof.
  unfold SFleb, SFcompare.
  change (Pos.compare_cont Eq) with Pos.compare.
  sf_cases x; sf_cases y; sf_cases z;
    try discriminate; try reflexivity;
    cmp_cases; simpl; try discriminate; try reflexivity;
    intros _ _; subst; lia.
Qed.

Lemma SFleb_total (x y : spec_float) :
  sf_is_nan x = false -> sf_is_nan y = false ->
  SFleb x y = true \/ SFleb y x = true.
Proof.
  unfold SFleb, SFcompare.
  change (Pos.compare_cont Eq) with Pos.compare.
  sf_cases x; sf_cases y; try discriminate; intros _ _; auto;
    cmp_cases; simpl; auto; subst; lia.
Qed.

Lemma SFltb_not_SFleb (x y : spec_float) :
  SFltb x y = true -> SFleb y x = false.
Proof.
  unfold SFleb, SFltb, SFcompare.
  change (Pos.compare_cont Eq) with Pos.compare.
  sf_cases x; sf_cases y; try discriminate; try reflexivity;
    cmp_cases; simpl; try discriminate; try reflexivity;
    intros _; subst; lia.
Qed.

Lemma SFleb_nan_l (x y : spec_float) : SFleb x y = true -> sf_is_nan x = false.
Proof. unfold SFleb. sf_cases x; sf_cases y; simpl; congruence. Qed.

Lemma is_nan_spec (x : float) : is_nan x = sf_is_nan (Prim2SF x).
Proof.
  unfold is_nan. rewrite eqb_spec, SFeqb_refl. apply negb_involutive.
Qed.

Lemma sort_le_spec (x y : float) :
  np.sort_le x y = sf_le (Prim2SF x) (Prim2SF y).
Proof. unfold np.sort_le, sf_le. now rewrite is_nan_spec, leb_spec. Qed.

Lemma sort_le_trans (x y z : float) :
  np.sort_le x y = true -> np.sort_le y z = true -> np.sort_le x z = true.
Proof.
  rewrite !sort_le_spec. unfold sf_le.
  destruct (sf_is_nan (Prim2SF z)) eqn:Hz; [reflexivity|]. simpl.
  intros Hxy Hyz. rewrite (SFleb_nan_l _ _ Hyz) in Hxy. simpl in Hxy.
  eapply SFleb_trans; eassumption.
Qed.

Lemma sort_le_total (x y : float) :
  np.sort_le x y = true \/ np.sort_le y x = true.
Proof.
  rewrite !sort_le_spec. unfold sf_le.
  destruct (sf_is_nan (Prim2SF y)) eqn:Hy; [now left|].
  destruct (sf_is_nan (Prim2SF x)) eqn:Hx; [now right|].
  simpl. now apply SFleb_total.
Qed.

Lemma sort_le_false (x y : float) : np.sort_le x y = false -> np.sort_le y x = true.
Proof. destruct (sort_le_total x y); congruence. Qed.

Lemma ltb_not_leb (x y : float) : (x <? y)%float = true -> (y <=? x)%float = false.
Proof. rewrite ltb_spec, leb_spec. apply SFltb_not_SFleb. Qed.

Lemma ltb_not_nan_r (x y : float) : (x <? y)%float = true -> is_nan y = false.
Proof.
  rewrite ltb_spec, is_nan_spec. unfold SFltb.
  sf_cases (Prim2SF x); sf_cases (Prim2SF y); simpl; congruence.
Qed.

(** * Lists, sortedness and permutations *)

Section ListFacts.

Context {A : Type}.

Lemma StronglySorted_app (R : A -> A -> Prop) (l1 l2 : list A) :
  StronglySorted R l1 -> StronglySorted R l2 ->
  (forall x y, In x l1 -> In y l2 -> R x y) ->
  StronglySorted R (l1 ++ l2).
Proof.
  induction l1 as [|a l1 IH]; simpl; intros H1 H2 H12; [assumption|].
  apply StronglySorted_inv in H1. destruct H1 as [H1 Ha].
  constructor.
  - apply IH; auto.
  - apply Forall_app. split; [assumption|].
    apply Forall_forall. intros y Hy. apply H12; auto.
Qed.

Lemma StronglySorted_rev (R : A -> A -> Prop) (l : list A) :
  StronglySorted R l -> StronglySorted (fun x y => R y x) (rev l).
Proof.
  induction 1 as [|a l Hl IH Ha]; simpl; [constructor|].
  apply StronglySorted_app; [assumption|repeat constructor|].
  intros x y Hx [<-|[]]. apply in_rev in Hx.
  rewrite Forall_forall in Ha. auto.
Qed.

Lemma In_firstn (n : nat) (l : list A) (x : A) : In x (firstn n l) -> In x l.
Proof.
  revert l. induction n as [|n IH]; intros [|a l]; simpl; try tauto.
  intros [->|H]; auto.
Qed.

Lemma StronglySorted_firstn (R : A -> A -> Prop) (n : nat) (l : list A) :
  StronglySorted R l -> StronglySorted R (firstn n l).
Proof.
  revert l. induction n as [|n IH]; intros [|a l] H; simpl; try constructor.
  - apply IH. now apply StronglySorted_inv in H.
  - apply StronglySorted_inv in H. destruct H as [_ Ha].
    rewrite Forall_forall in *. intros x Hx. apply Ha. eapply In_firstn, Hx.
Qed.

Lemma StronglySorted_weaken (R R' : A -> A -> Prop) (l : list A) :
  (forall x y, In x l -> In y l -> R x y -> R' x y) ->
  StronglySorted R l -> StronglySorted R' l.
Proof.
  intros HR H. induction H as [|a l Hl IH Ha]; constructor.
  - apply IH. intros x y Hx Hy. apply HR; now right.
  - rewrite Forall_forall in *. intros y Hy.
    apply HR; [now left|now right|auto].
Qed.

Lemma StronglySorted_map {B : Type} (f : A -> B) (R : B -> B -> Prop) (l : list A) :
  StronglySorted (fun x y => R (f x) (f y)) l -> StronglySorted R (map f l).
Proof.
  induction 1 as [|a l Hl IH Ha]; simpl; constructor; [assumption|].
  rewrite Forall_forall in *. intros y Hy.
  apply in_map_iff in Hy. destruct Hy as [x [<- Hx]]. auto.
Qed.

Lemma filter_split_Permutation (p : A -> bool) (l : list A) :
  Permutation (filter (fun x => negb (p x)) l ++ filter p l) l.
Proof.
  induction l as [|a l IH]; simpl; [constructor|].
  destruct (p a); simpl.
  - apply Permutation_sym, Permutation_cons_app. now apply Permutation_sym.
  - now constructor.
Qed.

Lemma take_seq (d : A) (l : list A) : np.take d l (seq 0 (length l)) = l.
Proof.
  unfold np.take. induction l as [|a l IH]; simpl; [reflexivity|].
  f_equal. rewrite <- seq_shift, map_map. exact IH.
Qed.

Lemma take_Permutation (d : A) (l : list A) (idx : list nat) :
  Permutation idx (seq 0 (length l)) -> Permutation (np.take d l idx) l.
Proof.
  intros H. rewrite <- (take_seq d l) at 2.
  unfold np.take. now apply Permutation_map.
Qed.

Lemma take_length (d : A) (l : list A) (idx : list nat) :
  length (np.take d l idx) = length idx.
Proof. unfold np.take. apply length_map. Qed.

Lemma take_map {B : Type} (f : A -> B) (d : A) (l : list A) (idx : list nat) :
  map f (np.take d l idx) = np.take (f d) (map f l) idx.
Proof.
  unfold np.take. rewrite map_map. apply map_ext.
  intros i. symmetry. apply map_nth.
Qed.

Lemma take_rev (d : A) (l : list A) (idx : list nat) :
  np.take d l (rev idx) = rev (np.take d l idx).
Proof. unfold np.take. apply map_rev. Qed.

Lemma take_app (d : A) (l : list A) (idx1 idx2 : list nat) :
  np.take d l (idx1 ++ idx2) = np.take d l idx1 ++ np.take d l idx2.
Proof. unfold np.take. apply map_app. Qed.

End ListFacts.

(** Reading [a] through positions that were themselves read from [idx]. *)
Lemma take_take {A : Type} (d : A) (a : list A) (idx js : list nat) :
  Forall (fun j => j < length idx) js ->
  np.take d a (np.take 0 idx js) = np.take d (np.take d a idx) js.
Proof.
  intros H. unfold np.take. rewrite map_map.
  apply map_ext_in. intros j Hj.
  rewrite Forall_forall in H. specialize (H j Hj).
  rewrite (nth_indep (map _ idx) d (nth 0 a d)) by (now rewrite length_map).
  symmetry. apply (map_nth (fun i => nth i a d)).
Qed.

Lemma Permutation_seq_bound (idx : list nat) (n : nat) :
  Permutation idx (seq 0 n) -> Forall (fun j => j < n) idx.
Proof.
  intros H. apply Forall_forall. intros j Hj.
  apply (Permutation_in _ H), in_seq in Hj. lia.
Qed.

(** * Insertion sort meets the contract *)

Section InsertionSortCorrect.

Variable key : nat -> float.
Variable before : float -> float -> bool.

Hypothesis before_true :
  forall x y, before x y = true -> np.sort_le x y = true.
Hypothesis before_false :
  forall x y, before x y = false -> np.sort_le y x = true.

Let R (i j : nat) : Prop := np.sort_le (key i) (key j) = true.

Lemma insert_Permutation (i : nat) (l : list nat) :
  Permutation (insert key before i l) (i :: l).
Proof.
  induction l as [|j l IH]; simpl; [apply Permutation_refl|].
  destruct (before (key i) (key j)); [apply Permutation_refl|].
  eapply perm_trans; [apply perm_skip, IH|apply perm_swap].
Qed.

Lemma insert_sorted (i : nat) (l : list nat) :
  StronglySorted R l -> StronglySorted R (insert key before i l).
Proof.
  induction 1 as [|j l Hl IH Hj]; simpl; [repeat constructor|].
  destruct (before (key i) (key j)) eqn:Hij.
  - constructor; [now constructor|].
    constructor; [now apply before_true|].
    rewrite Forall_forall in *. intros k Hk.
    eapply sort_le_trans; [apply before_true, Hij|now apply Hj].
  - constructor; [assumption|].
    apply (Permutation_Forall (Permutation_sym (insert_Permutation i l))).
    constructor; [now apply before_false|assumption].
Qed.

Lemma isort_Permutation (l : list nat) : Permutation (isort key before l) l.
Proof.
  induction l as [|i l IH]; simpl; [constructor|].
  eapply perm_trans; [apply insert_Permutation|now constructor].
Qed.

Lemma isort_sorted (l : list nat) : StronglySorted R (isort key before l).
Proof.
  induction l as [|i l IH]; simpl; [constructor|now apply insert_sorted].
Qed.

End InsertionSortCorrect.

Lemma isort_argsort_spec (before : float -> float -> bool) :
  (forall x y, before x y = true -> np.sort_le x y = true) ->
  (forall x y, before x y = false -> np.sort_le y x = true) ->
  argsort_spec (fun a => isort (fun i => nth i a nan) before (seq 0 (length a))).
Proof.
  intros Ht Hf a. split.
  - apply isort_Permutation.
  - unfold np.take. apply StronglySorted_map. now apply isort_sorted.
Qed.

Lemma insertion_argsort_spec : argsort_spec insertion_argsort.
Proof.
  apply isort_argsort_spec; [auto|apply sort_le_false].
Qed.

(** * pandas: [head] and [nargsort] *)

Lemma head_map {A B : Type} (f : A -> B) (n : Z) (l : list A) :
  map f (head n l) = head n (map f l).
Proof.
  unfold head. rewrite length_map.
  destruct (0 <=? n)%Z; symmetry; apply firstn_map.
Qed.

Lemma head_sorted {A : Type} (R : A -> A -> Prop) (n : Z) (l : list A) :
  StronglySorted R l -> StronglySorted R (head n l).
Proof. unfold head. destruct (0 <=? n)%Z; apply StronglySorted_firstn. Qed.

Lemma head_length {A : Type} (n : Z) (l : list A) :
  (0 <= n)%Z -> length (head n l) = Nat.min (Z.to_nat n) (length l).
Proof.
  intros Hn. unfold head.
  destruct (Z.leb_spec 0 n); [apply length_firstn|lia].
Qed.

Lemma head_all {A : Type} (n : Z) (l : list A) :
  (Z.of_nat (length l) <= n)%Z -> head n l = l.
Proof.
  intros Hn. unfold head.
  destruct (Z.leb_spec 0 n); [apply firstn_all2|]; lia.
Qed.


Lemma all_nan_sorted (l : list float) :
  Forall (fun y => is_nan y = true) l ->
  StronglySorted (fun x y => ranks_before x y = true) l.
Proof.
  induction 1 as [|y l Hy Hl IH]; constructor; [assumption|].
  eapply Forall_impl; [|exact Hl].
  intros z Hz. unfold ranks_before. now rewrite Hz.
Qed.

Section Nargsort.

Variable argsort : list float -> list nat.
Hypothesis argsort_ok : argsort_spec argsort.

Variable items : list float.

Let non_nan_idx : list nat :=
  filter (fun i => negb (is_nan (nth i items nan))) (seq 0 (length items)).
Let nan_idx : list nat :=
  filter (fun i => is_nan (nth i items nan)) (seq 0 (length items)).
Let non_nans : list float := rev (np.take nan items non_nan_idx).

Lemma non_nans_length : length non_nans = length (rev non_nan_idx).
Proof. unfold non_nans. now rewrite !length_rev, take_length. Qed.

Lemma non_nans_not_nan (x : float) : In x non_nans -> is_nan x = false.
Proof.
  unfold non_nans, np.take. rewrite <- in_rev, in_map_iff.
  intros [i [<- Hi]]. apply filter_In in Hi.
  now apply negb_true_iff.
Qed.

Lemma nargsort_desc_Permutation :
  Permutation (nargsort_desc argsort items) (seq 0 (length items)).
Proof.
  unfold nargsort_desc. fold non_nan_idx nan_idx non_nans.
  destruct (argsort_ok non_nans) as [Hperm _].
  rewrite non_nans_length in Hperm.
  eapply perm_trans; [|apply (filter_split_Permutation
    (fun i => is_nan (nth i items nan)))].
  apply Permutation_app_tail. fold non_nan_idx.
  eapply perm_trans; [apply Permutation_sym, Permutation_rev|].
  eapply perm_trans; [apply take_Permutation, Hperm|].
  apply Permutation_sym, Permutation_rev.
Qed.

Lemma nargsort_desc_keys :
  np.take nan items (nargsort_desc argsort items) =
  rev (np.take nan non_nans (argsort non_nans)) ++ np.take nan items nan_idx.
Proof.
  unfold nargsort_desc. fold non_nan_idx nan_idx non_nans.
  destruct (argsort_ok non_nans) as [Hperm _].
  rewrite non_nans_length in Hperm.
  rewrite take_app, take_rev. f_equal. f_equal.
  rewrite take_take by (now apply Permutation_seq_bound).
  now rewrite take_rev.
Qed.

Lemma nargsort_desc_sorted :
  StronglySorted (fun x y => ranks_before x y = true)
                 (np.take nan items (nargsort_desc argsort items)).
Proof.
  rewrite nargsort_desc_keys.
  destruct (argsort_ok non_nans) as [Hperm Hsorted].
  assert (Hnn : forall x, In x (np.take nan non_nans (argsort non_nans)) ->
                          is_nan x = false).
  { intros x Hx. apply non_nans_not_nan.
    eapply Permutation_in; [apply take_Permutation, Hperm|exact Hx]. }
  assert (Hna : Forall (fun y => is_nan y = true) (np.take nan items nan_idx)).
  { apply Forall_forall. intros y Hy. unfold np.take in Hy.
    apply in_map_iff in Hy. destruct Hy as [i [<- Hi]].
    now apply filter_In in Hi. }
  apply StronglySorted_app.
  - apply StronglySorted_rev in Hsorted.
    eapply StronglySorted_weaken; [|exact Hsorted].
    intros x y Hx _ Hyx. apply in_rev in Hx; apply Hnn in Hx.
    unfold np.sort_le in Hyx. rewrite Hx in Hyx. simpl in Hyx.
    unfold ranks_before. rewrite Hyx. apply orb_true_r.
  - now apply all_nan_sorted.
  - intros x y _ Hy. rewrite Forall_forall in Hna.
    unfold ranks_before. now rewrite (Hna y Hy).
Qed.

End Nargsort.

(** * The comprehension and the column assignment *)

Lemma mapM_length {A B : Type} (f : A -> result B) (xs : list A) (ys : list B) :
  mapM f xs = Ok ys -> length ys = length xs.
Proof.
  revert ys. induction xs as [|x xs IH]; simpl; intros ys H.
  - now inversion H.
  - destruct (f x); [|discriminate]. simpl in H.
    destruct (mapM f xs); [|discriminate]. simpl in H.
    inversion H; subst. simpl. f_equal. now apply IH.
Qed.


Lemma mapM_total {A B : Type} (f : A -> result B) (g : A -> B) (xs : list A) :
  (forall x, In x xs -> f x = Ok (g x)) -> mapM f xs = Ok (map g xs).
Proof.
  induction xs as [|x xs IH]; simpl; intros H; [reflexivity|].
  rewrite (H x) by now left. simpl. rewrite IH; [reflexivity|].
  intros y Hy. apply H. now right.
Qed.

(** When [e] is the only exception [f] raises, one failing element makes
    the comprehension raise [e]. *)
Lemma mapM_raise {A B : Type} (f : A -> result B) (e : PyError) (xs : list A) :
  (forall x e', f x = Raise e' -> e' = e) ->
  (exists x, In x xs /\ f x = Raise e) ->
  mapM f xs = Raise e.
Proof.
  intros Honly. induction xs as [|x xs IH]; intros [y [Hy Hf]]; [destruct Hy|].
  simpl. destruct (f x) as [b|e'] eqn:Hx; simpl.
  - destruct Hy as [->|Hy]; [congruence|].
    rewrite IH; [reflexivity|]. now exists y.
  - f_equal. eapply Honly, Hx.
Qed.

Lemma mapM_only_error {A B : Type} (f : A -> result B) (e0 e : PyError)
    (xs : list A) :
  (forall x e', f x = Raise e' -> e' = e0) ->
  mapM f xs = Raise e -> e = e0.
Proof.
  intros Honly. induction xs as [|x xs IH]; simpl; [discriminate|].
  destruct (f x) eqn:Hx; simpl.
  - destruct (mapM f xs); simpl; [discriminate|].
    intros H. inversion H; subst. now apply IH.
  - intros H. inversion H; subst. eapply Honly, Hx.
Qed.

Lemma dot_Ok (a b : vector) :
  length a = length b -> np.dot a b = Ok (np.inner a b).
Proof. intros H. unfold np.dot. now rewrite H, Nat.eqb_refl. Qed.

Lemma dot_Raise (a b : vector) :
  length a <> length b -> np.dot a b = Raise ValueError.
Proof.
  intros H. unfold np.dot. apply Nat.eqb_neq in H. now rewrite H.
Qed.

Lemma dot_only_ValueError (a b : vector) (e : PyError) :
  np.dot a b = Raise e -> e = ValueError.
Proof. unfold np.dot. destruct (Nat.eqb _ _); congruence. Qed.

Lemma cosine_similarity_Ok (a b : vector) :
  length a = length b ->
  cosine_similarity a b =
  Ok (np.inner a b / (np.linalg_norm a * np.linalg_norm b))%float.
Proof. intros H. unfold cosine_similarity. now rewrite dot_Ok. Qed.

Lemma cosine_similarity_Raise (a b : vector) :
  length a <> length b -> cosine_similarity a b = Raise ValueError.
Proof. intros H. unfold cosine_similarity. now rewrite dot_Raise. Qed.

Lemma cosine_similarity_only_ValueError (a b : vector) (e : PyError) :
  cosine_similarity a b = Raise e -> e = ValueError.
Proof.
  unfold cosine_similarity. destruct (np.dot a b) eqn:H; simpl; [discriminate|].
  intros H'. inversion H'; subst. eapply dot_only_ValueError, H.
Qed.

Lemma spatial_distance_cosine_Raise (u v : vector) :
  length u <> length v -> spatial_distance_cosine u v = Raise ValueError.
Proof. intros H. unfold spatial_distance_cosine. now rewrite dot_Raise. Qed.

Lemma spatial_distance_cosine_only_ValueError (u v : vector) (e : PyError) :
  spatial_distance_cosine u v = Raise e -> e = ValueError.
Proof.
  unfold spatial_distance_cosine. destruct (np.dot u v) eqn:H; simpl; [discriminate|].
  intros H'. inversion H'; subst. eapply dot_only_ValueError, H.
Qed.

Section SetSimilarities.

Variable df : DataFrame.
Variable values : list float.
Hypothesis same_length : length values = length df.

Lemma set_similarities_column {B : Type} (column : Row -> B) :
  (forall r v, column (mkRow (label r) (text r) (ada_embedding r)
                             (code_embedding r) (Some v)) = column r) ->
  map column (set_similarities df values) = map column df.
Proof.
  intros Hcol. unfold set_similarities. rewrite map_map.
  revert values same_length.
  induction df as [|r d IH]; intros [|v vs] Hlen; simpl in *;
    try discriminate; [reflexivity|].
  rewrite Hcol. f_equal. apply IH. now inversion Hlen.
Qed.


Lemma set_similarities_length :
  length (set_similarities df values) = length df.
Proof.
  unfold set_similarities. rewrite length_map, length_combine. lia.
Qed.

Lemma set_similarities_again :
  set_similarities (set_similarities df values) values = set_similarities df values.
Proof.
  unfold set_similarities.
  revert values same_length.
  induction df as [|r d IH]; intros [|v vs] Hlen; simpl in *;
    try discriminate; [reflexivity|].
  f_equal. apply IH. now inversion Hlen.
Qed.

End SetSimilarities.

(** * The body of [search_reviews] and [search_functions] *)

Section SearchFacts.

Variable get_embedding : string -> vector.
Variable argsort : list float -> list nat.
Variable column : Row -> vector.

Hypothesis column_kept :
  forall r v, column (mkRow (label r) (text r) (ada_embedding r)
                            (code_embedding r) (Some v)) = column r.

Lemma search_Ok_inv (df : DataFrame) (q : string) (n : option Z)
    (df' res : DataFrame) :
  search get_embedding argsort column df q n = (df', Ok res) ->
  exists values,
    mapM (fun x => cosine_similarity x (get_embedding q)) (map column df) = Ok values /\
    length values = length df /\
    df' = set_similarities df values /\
    res = head (default_n n) (sort_values_similarities_desc argsort df').
Proof.
  unfold search.
  destruct (mapM _ (map column df)) as [values|e] eqn:Hm; intros H;
    inversion H; subst.
  exists values. repeat split.
  apply mapM_length in Hm. now rewrite length_map in Hm.
Qed.

Lemma search_Raise_inv (df : DataFrame) (q : string) (n : option Z)
    (df' : DataFrame) (e : PyError) :
  search get_embedding argsort column df q n = (df', Raise e) ->
  df' = df /\ e = ValueError.
Proof.
  unfold search.
  destruct (mapM _ (map column df)) as [values|e'] eqn:Hm; intros H;
    inversion H; subst.
  split; [reflexivity|].
  eapply mapM_only_error; [|exact Hm].
  intros x e'. apply cosine_similarity_only_ValueError.
Qed.

Lemma search_matching (df : DataFrame) (q : string) (n : option Z) :
  (forall r, In r df -> length (column r) = length (get_embedding q)) ->
  exists values,
    length values = length df /\
    search get_embedding argsort column df q n =
    (set_similarities df values,
     Ok (head (default_n n)
              (sort_values_similarities_desc argsort (set_similarities df values)))).
Proof.
  intros Hdim.
  set (g := fun x : vector =>
    (np.inner x (get_embedding q) /
       (np.linalg_norm x * np.linalg_norm (get_embedding q)))%float).
  assert (Hm : mapM (fun x => cosine_similarity x (get_embedding q)) (map column df)
               = Ok (map g (map column df))).
  { apply mapM_total. intros x Hx. apply in_map_iff in Hx.
    destruct Hx as [r [<- Hr]]. apply cosine_similarity_Ok. now apply Hdim. }
  exists (map g (map column df)). split; [now rewrite !length_map|].
  unfold search. now rewrite Hm.
Qed.

Lemma search_mismatch (df : DataFrame) (q : string) (n : option Z) (r : Row) :
  In r df -> length (column r) <> length (get_embedding q) ->
  search get_embedding argsort column df q n = (df, Raise ValueError).
Proof.
  intros Hr Hlen. unfold search.
  rewrite (@mapM_raise _ _ _ ValueError); [reflexivity| |].
  - intros x e. apply cosine_similarity_only_ValueError.
  - exists (column r). split; [now apply in_map|].
    now apply cosine_similarity_Raise.
Qed.

Lemma search_again (df : DataFrame) (q : string) (n : option Z) :
  search get_embedding argsort column
         (fst (search get_embedding argsort column df q n)) q n =
  search get_embedding argsort column df q n.
Proof.
  destruct (search get_embedding argsort column df q n) as [df' [res|e]] eqn:H.
  - apply search_Ok_inv in H. destruct H as [values [Hm [Hlen [-> ->]]]].
    simpl. unfold search.
    rewrite (set_similarities_column df values Hlen column column_kept).
    rewrite Hm. now rewrite (set_similarities_again df values Hlen).
  - destruct (search_Raise_inv _ _ _ _ _ H) as [-> ->]. exact H.
Qed.

End SearchFacts.

(** * Ranking under the contract of the sorting kernel *)

Section Ranking.

Variable get_embedding : string -> vector.
Variable embedding_from_string : string -> vector.
Variable argsort : list float -> list nat.
Hypothesis argsort_ok : argsort_spec argsort.

Lemma sort_values_Permutation (df : DataFrame) :
  Permutation (sort_values_similarities_desc argsort df) df.
Proof.
  unfold sort_values_similarities_desc. apply take_Permutation.
  rewrite <- (length_map similarity). now apply nargsort_desc_Permutation.
Qed.

Lemma sort_values_sorted (df : DataFrame) :
  StronglySorted (fun x y => ranks_before x y = true)
                 (map similarity (sort_values_similarities_desc argsort df)).
Proof.
  unfold sort_values_similarities_desc. rewrite take_map.
  change (similarity empty_row) with nan.
  now apply nargsort_desc_sorted.
Qed.

Lemma search_sorted (column : Row -> vector) (df : DataFrame) (q : string)
    (n : option Z) (df' res : DataFrame) :
  search get_embedding argsort column df q n = (df', Ok res) ->
  StronglySorted (fun x y => ranks_before x y = true) (map similarity res).
Proof.
  intros H. apply search_Ok_inv in H. destruct H as [values [_ [_ [_ ->]]]].
  rewrite head_map. apply head_sorted, sort_values_sorted.
Qed.

Lemma search_length (column : Row -> vector) (df : DataFrame) (q : string)
    (n : option Z) (df' res : DataFrame) :
  search get_embedding argsort column df q n = (df', Ok res) ->
  (0 <= default_n n)%Z ->
  length res = Nat.min (Z.to_nat (default_n n)) (length df).
Proof.
  intros H Hn. apply search_Ok_inv in H.
  destruct H as [values [_ [Hlen [-> ->]]]].
  rewrite head_length by assumption.
  rewrite (Permutation_length (sort_values_Permutation _)).
  now rewrite set_similarities_length.
Qed.

Lemma search_Permutation (column : Row -> vector) (df : DataFrame) (q : string)
    (n : option Z) (df' res : DataFrame) :
  search get_embedding argsort column df q n = (df', Ok res) ->
  (Z.of_nat (length df) <= default_n n)%Z ->
  Permutation res df' /\ map label df' = map label df.
Proof.
  intros H Hn. apply search_Ok_inv in H.
  destruct H as [values [_ [Hlen [-> ->]]]]. split.
  - rewrite head_all; [apply sort_values_Permutation|].
    rewrite (Permutation_length (sort_values_Permutation _)).
    now rewrite set_similarities_length.
  - now apply set_similarities_column.
Qed.

Lemma recommendations_inv (strings : list string) (i : Z) (indices : list nat) :
  recommendations_from_strings embedding_from_string argsort strings i = Ok indices ->
  exists distances,
    source_distances embedding_from_string strings i = Ok distances /\
    length distances = length strings /\
    indices = argsort distances.
Proof.
  unfold recommendations_from_strings, source_distances,
    indices_of_nearest_neighbors_from_distances.
  destruct (getitem _ i) as [query|e]; simpl; [|discriminate].
  destruct (distances_from_embeddings _ _) as [ds|e] eqn:Hd; simpl; [|discriminate].
  intros H. inversion H; subst. exists ds. repeat split.
  apply mapM_length in Hd. now rewrite length_map in Hd.
Qed.

End Ranking.

Lemma ranks_before_not_lt (x y : float) :
  ranks_before x y = true -> (x <? y)%float = false.
Proof.
  unfold ranks_before. intros H.
  destruct (x <? y)%float eqn:Hlt; [|reflexivity].
  rewrite (ltb_not_nan_r _ _ Hlt), (ltb_not_leb _ _ Hlt) in H. discriminate.
Qed.

Lemma getitem_Ok_inv {A : Type} (xs : list A) (i : Z) (x : A) :
  getitem xs i = Ok x ->
  let j := Z.to_nat (if (i <? 0)%Z then i + Z.of_nat (length xs) else i)%Z in
  j < length xs /\ nth_error xs j = Some x.
Proof.
  unfold getitem. simpl.
  set (j := (if (i <? 0)%Z then (i + Z.of_nat (length xs))%Z else i)).
  destruct ((0 <=? j)%Z && (j <? Z.of_nat (length xs))%Z) eqn:Hj; [|discriminate].
  apply andb_prop in Hj. destruct Hj as [H0 H1].
  apply Z.leb_le in H0. apply Z.ltb_lt in H1.
  destruct (nth_error xs (Z.to_nat j)) eqn:Hn; [|discriminate].
  intros H. inversion H; subst. split; [lia|reflexivity].
Qed.

Lemma descending_nth (l : list float) (i j : nat) :
  descending l -> i < j < length l ->
  ranks_before (nth i l nan) (nth j l nan) = true /\
  (nth i l nan <? nth j l nan)%float = false.
Proof.
  intros H. revert i j. induction H as [|x l Hl IH Hx]; simpl; intros i j Hij; [lia|].
  assert (forall a b, ranks_before a b = true ->
            ranks_before a b = true /\ (a <? b)%float = false) as Hboth.
  { intros a b Hab. split; [assumption|now apply ranks_before_not_lt]. }
  destruct j as [|j]; [lia|]. destruct i as [|i].
  - apply Hboth. rewrite Forall_forall in Hx. apply Hx, nth_In. lia.
  - apply IH. lia.
Qed.

Lemma search_reviews_search (get_embedding : string -> vector)
    (argsort : list float -> list nat) :
  search_reviews get_embedding argsort = search get_embedding argsort ada_embedding.
Proof. reflexivity. Qed.

Lemma search_functions_search (get_embedding : string -> vector)
    (argsort : list float -> list nat) :
  search_functions get_embedding argsort = search get_embedding argsort code_embedding.
Proof. reflexivity. Qed.

(** * The claims *)

(** C2, as the code has it.  A result of [search_reviews] or
    [search_functions] has [min(n, len(df))] rows for a non-negative [n],
    where a call that does not pass [n] runs with [n = 3];
    [recommendations_from_strings], which has no such parameter, returns
    one position for each string. *)
Theorem result_length :
  forall (get_embedding embedding_from_string : string -> vector)
         (argsort : list float -> list nat),
    argsort_spec argsort ->
    (forall df q n df' res,
        search_reviews get_embedding argsort df q n = (df', Ok res) ->
        (0 <= default_n n)%Z ->
        length res = Nat.min (Z.to_nat (default_n n)) (length df)) /\
    (forall df q n df' res,
        search_functions get_embedding argsort df q n = (df', Ok res) ->
        (0 <= default_n n)%Z ->
        length res = Nat.min (Z.to_nat (default_n n)) (length df)) /\
    (forall strings i indices,
        recommendations_from_strings embedding_from_string argsort strings i
          = Ok indices ->
        length indices = length strings).
Proof.
  intros ge efs argsort Hspec. repeat split.
  - intros df q n df' res H Hn. eapply search_length; eassumption.
  - intros df q n df' res H Hn. eapply search_length; eassumption.
  - intros strings i indices H.
    apply recommendations_inv in H. destruct H as [ds [_ [Hlen ->]]].
    destruct (Hspec ds) as [Hperm _].
    rewrite (Permutation_length Hperm), length_seq. exact Hlen.
Qed.

Lemma result_length_witness :
  argsort_spec insertion_argsort /\
  (0 <= default_n (Some 2%Z))%Z /\
  length [ranked "a" [1; 0] 1; ranked "c" [1; 1] (1 / (sqrt 2 * 1))]%float
    = Nat.min (Z.to_nat (default_n (Some 2%Z))) (length example_df).
Proof.
  split; [exact insertion_argsort_spec|].
  split; [discriminate|].
  exact (proj1 (result_length example_embedding example_embedding_from_string
                  insertion_argsort insertion_argsort_spec)
               example_df "query"%string (Some 2%Z) _ _ eq_refl
               (fun H => match H with eq_refl => I end)).
Defined.

(** C2 as stated fails: without [n], four candidates give three rows. *)
Lemma result_length_default_n_counterexample :
  exists df' res,
    search_reviews example_embedding insertion_argsort four_df "query" None
      = (df', Ok res) /\
    length res = 3 /\ length four_df = 4.
Proof. do 2 eexists. split; [reflexivity|]. split; reflexivity. Qed.

(** C10, as the code has it.  When [n] is at least the number of rows
    (a call that does not pass [n] runs with [n = 3]), the labels of the
    result of [search_reviews] or [search_functions] are the labels of the
    frame, each as often as there; and [recommendations_from_strings]
    returns the positions [0 .. len(strings) - 1], each once, the position
    of the source string among them. *)
Theorem untruncated_ranking_is_permutation :
  forall (get_embedding embedding_from_string : string -> vector)
         (argsort : list float -> list nat),
    argsort_spec argsort ->
    (forall df q n df' res,
        search_reviews get_embedding argsort df q n = (df', Ok res) ->
        (Z.of_nat (length df) <= default_n n)%Z ->
        Permutation (map label res) (map label df)) /\
    (forall df q n df' res,
        search_functions get_embedding argsort df q n = (df', Ok res) ->
        (Z.of_nat (length df) <= default_n n)%Z ->
        Permutation (map label res) (map label df)) /\
    (forall strings i indices,
        recommendations_from_strings embedding_from_string argsort strings i
          = Ok indices ->
        Permutation indices (seq 0 (length strings)) /\
        In (Z.to_nat (if (i <? 0)%Z then i + Z.of_nat (length strings) else i))
           indices).
Proof.
  intros ge efs argsort Hspec.
  assert (Hsearch : forall column df q n df' res,
    search ge argsort column df q n = (df', Ok res) ->
    (Z.of_nat (length df) <= default_n n)%Z ->
    Permutation (map label res) (map label df)).
  { intros column df q n df' res H Hn.
    destruct (search_Permutation ge argsort Hspec column df q n df' res H Hn)
      as [Hperm <-].
    now apply Permutation_map. }
  split; [intros df q n df' res; apply Hsearch|].
  split; [intros df q n df' res; apply Hsearch|].
  intros strings i indices H. split.
  - apply recommendations_inv in H. destruct H as [ds [_ [Hlen ->]]].
    rewrite <- Hlen. apply Hspec.
  - assert (Hi : exists query,
      getitem (map efs strings) i = Ok query).
    { revert H. unfold recommendations_from_strings.
      destruct (getitem _ i) as [query|e]; simpl; [eauto|discriminate]. }
    destruct Hi as [query Hq]. apply getitem_Ok_inv in Hq. simpl in Hq.
    rewrite length_map in Hq. destruct Hq as [Hj _].
    apply recommendations_inv in H. destruct H as [ds [_ [Hlen ->]]].
    destruct (Hspec ds) as [Hperm _].
    apply (Permutation_in _ (Permutation_sym Hperm)), in_seq. lia.
Qed.

Lemma untruncated_ranking_is_permutation_witness :
  argsort_spec insertion_argsort /\
  (Z.of_nat (length example_df) <= default_n None)%Z /\
  Permutation ["a"; "c"; "b"]%string (map label example_df).
Proof.
  split; [exact insertion_argsort_spec|].
  split; [discriminate|].
  apply (proj1 (untruncated_ranking_is_permutation example_embedding
                  example_embedding_from_string insertion_argsort
                  insertion_argsort_spec)
               example_df "query"%string None
               [ranked "a" [1; 0] 1; ranked "b" [0; 1] 0;
                ranked "c" [1; 1] (1 / (sqrt 2 * 1))]%float
               [ranked "a" [1; 0] 1; ranked "c" [1; 1] (1 / (sqrt 2 * 1));
                ranked "b" [0; 1] 0]%float).
  - reflexivity.
  - discriminate.
Defined.

(** C10 as stated fails: a call without [n] on four candidates is cut to
    three rows, so the label "b" of the frame is missing from the result. *)
Lemma default_n_not_a_permutation_counterexample :
  exists df' res,
    search_reviews example_embedding insertion_argsort four_df "query" None
      = (df', Ok res) /\
    map label four_df = ["a"; "b"; "c"; "d"]%string /\
    map label res = ["a"; "c"; "d"]%string /\
    ~ Permutation (map label res) (map label four_df).
Proof.
  do 2 eexists. split; [reflexivity|]. repeat split.
  intros H. apply Permutation_length in H. discriminate.
Qed.

(** C3, as the code has it.  On a frame without rows [search_reviews] and
    [search_functions] raise nothing: they return a frame without rows.
    [recommendations_from_strings] on an empty list raises [IndexError]
    when it looks up the source string.  On a frame whose embeddings all
    have the length of the query's, with or without rows, the search
    returns a result. *)
Theorem empty_candidates_give_empty_result :
  forall (get_embedding embedding_from_string : string -> vector)
         (argsort : list float -> list nat),
    argsort_spec argsort ->
    (forall q n, search_reviews get_embedding argsort [] q n = ([], Ok [])) /\
    (forall q n, search_functions get_embedding argsort [] q n = ([], Ok [])) /\
    (forall i,
        recommendations_from_strings embedding_from_string argsort [] i
          = Raise IndexError) /\
    (forall df q n,
        (forall r, In r df ->
                   length (ada_embedding r) = length (get_embedding q)) ->
        exists df' res,
          search_reviews get_embedding argsort df q n = (df', Ok res)) /\
    (forall df q n,
        (forall r, In r df ->
                   length (code_embedding r) = length (get_embedding q)) ->
        exists df' res,
          search_functions get_embedding argsort df q n = (df', Ok res)).
Proof.
  intros ge efs argsort Hspec.
  rewrite search_reviews_search, search_functions_search.
  assert (Hempty : forall column q n,
            search ge argsort column [] q n = ([], Ok [])).
  { intros column q n. unfold search. simpl.
    unfold sort_values_similarities_desc, nargsort_desc. simpl.
    destruct (Hspec []) as [Hperm _]. simpl in Hperm.
    apply Permutation_sym, Permutation_nil in Hperm. rewrite Hperm. simpl.
    unfold head. rewrite !firstn_nil. now destruct (0 <=? default_n n)%Z. }
  assert (Hdim : forall column df q n,
            (forall r, In r df -> length (column r) = length (ge q)) ->
            exists df' res, search ge argsort column df q n = (df', Ok res)).
  { intros column df q n H.
    destruct (search_matching ge argsort column df q n H) as [values [_ Hv]].
    eauto. }
  split; [intros q n; apply Hempty|].
  split; [intros q n; apply Hempty|].
  split.
  - intros i. unfold recommendations_from_strings, getitem. simpl.
    destruct (i <? 0)%Z eqn:Hi.
    + rewrite Z.add_0_r.
      destruct (Z.leb_spec 0 i); [apply Z.ltb_lt in Hi; lia|reflexivity].
    + destruct (0 <=? i)%Z; simpl; [|reflexivity].
      apply Z.ltb_ge in Hi. destruct (Z.ltb_spec i 0); [lia|reflexivity].
  - split; intros df q n; apply Hdim.
Qed.

Lemma empty_candidates_give_empty_result_witness :
  argsort_spec insertion_argsort /\
  (forall r, In r example_df ->
             length (ada_embedding r) = length (example_embedding "query")) /\
  exists df' res,
    search_reviews example_embedding insertion_argsort example_df "query" None
      = (df', Ok res).
Proof.
  assert (Hdim : forall r, In r example_df ->
            length (ada_embedding r) = length (example_embedding "query")).
  { intros r [<-|[<-|[<-|[]]]]; reflexivity. }
  split; [exact insertion_argsort_spec|].
  split; [exact Hdim|].
  exact (proj1 (proj2 (proj2 (proj2
           (empty_candidates_give_empty_result example_embedding
              example_embedding_from_string insertion_argsort
              insertion_argsort_spec))))
         example_df "query"%string None Hdim).
Defined.

(** C3 as stated fails: no rows, no error. *)
Lemma empty_frame_not_an_error_counterexample :
  search_reviews example_embedding insertion_argsort [] "query" (Some 3%Z)
    = ([], Ok []).
Proof. reflexivity. Qed.

(** C4.  When the embedding of some row has another length than the
    embedding of the query, [search_reviews] and [search_functions] raise
    the [ValueError] of [np.dot], return no rows and leave the frame as it
    was; [recommendations_from_strings] raises it as well when some string
    is embedded with another length than the source string. *)
Theorem dimension_mismatch_raises :
  forall (get_embedding embedding_from_string : string -> vector)
         (argsort : list float -> list nat),
    (forall df q n r,
        In r df ->
        length (ada_embedding r) <> length (get_embedding q) ->
        search_reviews get_embedding argsort df q n = (df, Raise ValueError)) /\
    (forall df q n r,
        In r df ->
        length (code_embedding r) <> length (get_embedding q) ->
        search_functions get_embedding argsort df q n = (df, Raise ValueError)) /\
    (forall strings i query s,
        getitem (map embedding_from_string strings) i = Ok query ->
        In s strings ->
        length (embedding_from_string s) <> length query ->
        recommendations_from_strings embedding_from_string argsort strings i
          = Raise ValueError).
Proof.
  intros ge efs argsort. repeat split.
  - intros df q n r. apply search_mismatch.
  - intros df q n r. apply search_mismatch.
  - intros strings i query s Hq Hs Hlen.
    unfold recommendations_from_strings. rewrite Hq. simpl.
    unfold distances_from_embeddings.
    rewrite (mapM_raise _ ValueError); [reflexivity| |].
    + intros x e. apply spatial_distance_cosine_only_ValueError.
    + exists (efs s). split; [now apply in_map|].
      apply spatial_distance_cosine_Raise. congruence.
Qed.

Lemma dimension_mismatch_raises_witness :
  let df := [candidate "a" [1; 0]; candidate "b" [0; 1; 0]]%float in
  In (candidate "b" [0; 1; 0]%float) df /\
  length (ada_embedding (candidate "b" [0; 1; 0]%float))
    <> length (example_embedding "query") /\
  search_reviews example_embedding insertion_argsort df "query" None
    = (df, Raise ValueError).
Proof.
  assert (Hin : In (candidate "b" [0; 1; 0]%float)
                   [candidate "a" [1; 0]; candidate "b" [0; 1; 0]]%float).
  { right. left. reflexivity. }
  assert (Hlen : length (ada_embedding (candidate "b" [0; 1; 0]%float))
                 <> length (example_embedding "query")).
  { discriminate. }
  split; [exact Hin|]. split; [exact Hlen|].
  exact (proj1 (dimension_mismatch_raises example_embedding
                  example_embedding_from_string insertion_argsort)
               _ "query"%string None _ Hin Hlen).
Defined.

(** * Arithmetic on zeros *)

Lemma is_zero_zero_or_nan (x : float) : is_zero x = true -> zero_or_nan x = true.
Proof.
  unfold is_zero, zero_or_nan. rewrite eqb_spec.
  change (Prim2SF zero) with (S754_zero false).
  unfold SFeqb, SFcompare.
  sf_cases (Prim2SF x); simpl; congruence.
Qed.

Lemma mul_zero_or_nan_l (x y : float) :
  zero_or_nan x = true -> zero_or_nan (x * y) = true.
Proof.
  unfold zero_or_nan. rewrite mul_spec. unfold SF64mul, SFmul.
  sf_cases (Prim2SF x); sf_cases (Prim2SF y); simpl; congruence.
Qed.

Lemma mul_zero_or_nan_r (x y : float) :
  zero_or_nan y = true -> zero_or_nan (x * y) = true.
Proof.
  unfold zero_or_nan. rewrite mul_spec. unfold SF64mul, SFmul.
  sf_cases (Prim2SF x); sf_cases (Prim2SF y); simpl; congruence.
Qed.

Lemma add_zero_or_nan (x y : float) :
  zero_or_nan x = true -> zero_or_nan y = true -> zero_or_nan (x + y) = true.
Proof.
  unfold zero_or_nan. rewrite add_spec. unfold SF64add, SFadd.
  sf_cases (Prim2SF x); sf_cases (Prim2SF y); simpl; congruence.
Qed.

Lemma sqrt_zero_or_nan (x : float) :
  zero_or_nan x = true -> zero_or_nan (sqrt x) = true.
Proof.
  unfold zero_or_nan. rewrite sqrt_spec. unfold SF64sqrt, SFsqrt.
  sf_cases (Prim2SF x); simpl; congruence.
Qed.

Lemma div_zero_or_nan (x y : float) :
  zero_or_nan x = true -> zero_or_nan y = true -> is_nan (x / y) = true.
Proof.
  unfold zero_or_nan. rewrite is_nan_spec, div_spec. unfold SF64div, SFdiv.
  sf_cases (Prim2SF x); sf_cases (Prim2SF y); simpl; congruence.
Qed.

Lemma sub_nan_r (x y : float) : is_nan y = true -> is_nan (x - y) = true.
Proof.
  rewrite !is_nan_spec, sub_spec. unfold SF64sub, SFsub.
  sf_cases (Prim2SF x); sf_cases (Prim2SF y); simpl; congruence.
Qed.

Lemma clip_nan (x lo hi : float) : is_nan x = true -> is_nan (np.clip x lo hi) = true.
Proof. intros H. unfold np.clip. now rewrite H. Qed.

Lemma fold_inner_zero_l (a b : vector) (acc : float) :
  all_zero a -> zero_or_nan acc = true ->
  zero_or_nan (fold_left (fun acc xy => (acc + fst xy * snd xy)%float)
                         (combine a b) acc) = true.
Proof.
  intros Ha. revert b acc.
  induction Ha as [|x a Hx Ha IH]; intros [|y b] acc Hacc; simpl; try assumption.
  apply IH. apply add_zero_or_nan; [assumption|].
  now apply mul_zero_or_nan_l, is_zero_zero_or_nan.
Qed.

Lemma fold_inner_zero_r (a b : vector) (acc : float) :
  all_zero b -> zero_or_nan acc = true ->
  zero_or_nan (fold_left (fun acc xy => (acc + fst xy * snd xy)%float)
                         (combine a b) acc) = true.
Proof.
  intros Hb. revert a acc.
  induction Hb as [|y b Hy Hb IH]; intros [|x a] acc Hacc; simpl; try assumption.
  apply IH. apply add_zero_or_nan; [assumption|].
  now apply mul_zero_or_nan_r, is_zero_zero_or_nan.
Qed.

Lemma inner_zero_l (a b : vector) : all_zero a -> zero_or_nan (np.inner a b) = true.
Proof. intros H. now apply fold_inner_zero_l. Qed.

Lemma inner_zero_r (a b : vector) : all_zero b -> zero_or_nan (np.inner a b) = true.
Proof. intros H. now apply fold_inner_zero_r. Qed.

Lemma similarity_quotient_nan (a b : vector) :
  all_zero a \/ all_zero b ->
  is_nan (np.inner a b / (np.linalg_norm a * np.linalg_norm b)) = true.
Proof.
  unfold np.linalg_norm. intros [H|H]; apply div_zero_or_nan.
  - now apply inner_zero_l.
  - now apply mul_zero_or_nan_l, sqrt_zero_or_nan, inner_zero_l.
  - now apply inner_zero_r.
  - now apply mul_zero_or_nan_r, sqrt_zero_or_nan, inner_zero_r.
Qed.

Lemma scipy_quotient_nan (u v : vector) :
  all_zero u \/ all_zero v ->
  is_nan (np.inner u v / sqrt (np.inner u u * np.inner v v)) = true.
Proof.
  intros [H|H]; apply div_zero_or_nan.
  - now apply inner_zero_l.
  - now apply sqrt_zero_or_nan, mul_zero_or_nan_l, inner_zero_l.
  - now apply inner_zero_r.
  - now apply sqrt_zero_or_nan, mul_zero_or_nan_r, inner_zero_r.
Qed.

(** C5, as the code has it.  For two vectors of one length the cosine
    similarity is the quotient [dot(a, b) / (norm(a) * norm(b))], and the
    distance is 1 minus it, with no guard on the divisor: when all entries
    of one of the vectors are zero the quotient is [0/0], a NaN, and so is
    the distance; no exception is raised and no maximal distance is put in
    its place.  The same holds for scipy's cosine distance. *)
Theorem cosine_of_zero_vector_is_nan :
  forall a b : vector,
    length a = length b ->
    cosine_similarity a b
      = Ok (np.inner a b / (np.linalg_norm a * np.linalg_norm b))%float /\
    (all_zero a \/ all_zero b ->
     exists s d d',
       cosine_similarity a b = Ok s /\ is_nan s = true /\
       cosine_distance a b = Ok d /\ is_nan d = true /\
       spatial_distance_cosine a b = Ok d' /\ is_nan d' = true).
Proof.
  intros a b Hlen. split; [now apply cosine_similarity_Ok|].
  intros Hz.
  unfold cosine_distance, spatial_distance_cosine.
  rewrite cosine_similarity_Ok, dot_Ok by assumption. simpl.
  do 3 eexists. split; [reflexivity|].
  split; [now apply similarity_quotient_nan|].
  split; [reflexivity|].
  split; [now apply sub_nan_r, similarity_quotient_nan|].
  split; [reflexivity|].
  now apply clip_nan, sub_nan_r, scipy_quotient_nan.
Qed.

Lemma cosine_of_zero_vector_is_nan_witness :
  length [0; 0]%float = length [1; 0]%float /\
  (all_zero [0; 0]%float \/ all_zero [1; 0]%float) /\
  exists s d d',
    cosine_similarity [0; 0]%float [1; 0]%float = Ok s /\ is_nan s = true /\
    cosine_distance [0; 0]%float [1; 0]%float = Ok d /\ is_nan d = true /\
    spatial_distance_cosine [0; 0]%float [1; 0]%float = Ok d' /\
    is_nan d' = true.
Proof.
  assert (Hz : all_zero [0; 0]%float \/ all_zero [1; 0]%float).
  { left. repeat constructor. }
  split; [reflexivity|]. split; [exact Hz|].
  exact (proj2 (cosine_of_zero_vector_is_nan [0; 0]%float [1; 0]%float eq_refl) Hz).
Defined.

(** C5 as stated fails: against a zero vector the similarity and the
    distance are NaN; the call raises nothing and the distance is not the
    greatest one, 2. *)
Lemma zero_vector_unguarded_counterexample :
  cosine_similarity [0; 0]%float [1; 0]%float = Ok nan /\
  cosine_distance [0; 0]%float [1; 0]%float = Ok nan /\
  (nan =? 2)%float = false.
Proof. repeat split. Qed.

(** A vector that is not zero can have the norm 0 as well: the square of
    [2^-600] underflows.  Its similarity is then [+infinity], which ranks
    it first. *)
Remark underflowing_norm_similarity :
  np.linalg_norm [0x1p-600]%float = 0%float /\
  cosine_similarity [0x1p-600]%float [1]%float = Ok infinity.
Proof. split; reflexivity. Qed.

Lemma hd_head_take {A : Type} (d : A) (l : list A) (n : Z) (j : nat)
    (idx : list nat) :
  (0 < n)%Z -> hd_error (head n (np.take d l (j :: idx))) = Some (nth j l d).
Proof.
  intros Hn. unfold head. destruct (Z.leb_spec 0 n); [|lia].
  destruct (Z.to_nat n) eqn:Hk; [lia|]. reflexivity.
Qed.

Lemma search_strict_maximum_first
    (get_embedding : string -> vector) (argsort : list float -> list nat)
    (column : Row -> vector) (df : DataFrame) (q : string) (n : option Z)
    (df' res : DataFrame) (i : nat) (c : Row) :
  argsort_spec argsort ->
  search get_embedding argsort column df q n = (df', Ok res) ->
  (0 < default_n n)%Z ->
  nth_error df' i = Some c ->
  (forall j r, j <> i -> nth_error df' j = Some r ->
               (similarity r <? similarity c)%float = true) ->
  hd_error res = Some c.
Proof.
  intros Hspec H Hn Hc Hbest.
  apply search_Ok_inv in H. destruct H as [values [_ [_ [Hdf' ->]]]].
  clear Hdf'. unfold sort_values_similarities_desc.
  pose proof (nargsort_desc_Permutation argsort Hspec (map similarity df')) as Hperm.
  pose proof (nargsort_desc_sorted argsort Hspec (map similarity df')) as Hsorted.
  rewrite length_map in Hperm.
  assert (Hi : i < length df') by (apply nth_error_Some; congruence).
  assert (Hin : In i (nargsort_desc argsort (map similarity df'))).
  { apply (Permutation_in _ (Permutation_sym Hperm)), in_seq. lia. }
  destruct (nargsort_desc argsort (map similarity df')) as [|j0 idx]; [destruct Hin|].
  rewrite hd_head_take by assumption.
  destruct (Nat.eq_dec j0 i) as [->|Hne].
  - f_equal. now apply nth_error_nth.
  - exfalso. destruct Hin as [Heq|Hin]; [contradiction|].
    assert (Hj0 : j0 < length df').
    { pose proof (Permutation_in _ Hperm (or_introl eq_refl)) as Hj.
      apply in_seq in Hj. lia. }
    specialize (Hbest j0 (nth j0 df' empty_row) Hne (nth_error_nth' df' empty_row Hj0)).
    simpl in Hsorted. apply StronglySorted_inv in Hsorted.
    destruct Hsorted as [_ Hall]. rewrite Forall_forall in Hall.
    assert (Hrank : ranks_before (nth j0 (map similarity df') nan)
                                 (nth i (map similarity df') nan) = true).
    { apply Hall. unfold np.take.
      exact (in_map (fun k => nth k (map similarity df') nan) idx i Hin). }
    change nan with (similarity empty_row) in Hrank.
    rewrite !map_nth in Hrank.
    rewrite (nth_error_nth df' i empty_row Hc) in Hrank.
    apply ranks_before_not_lt in Hrank. congruence.
Qed.

Lemma search_frame
    (get_embedding : string -> vector) (argsort : list float -> list nat)
    (column : Row -> vector) (df : DataFrame) (q : string) (n : option Z) :
  (forall r v, column (mkRow (label r) (text r) (ada_embedding r)
                             (code_embedding r) (Some v)) = column r) ->
  let df' := fst (search get_embedding argsort column df q n) in
  map label df' = map label df /\
  map text df' = map text df /\
  map ada_embedding df' = map ada_embedding df /\
  map code_embedding df' = map code_embedding df /\
  match snd (search get_embedding argsort column df q n) with
  | Ok _ => exists values,
      mapM (fun x => cosine_similarity x (get_embedding q)) (map column df)
        = Ok values /\
      map similarities df' = map Some values
  | Raise _ => df' = df
  end.
Proof.
  intros Hcol.
  destruct (search get_embedding argsort column df q n) as [df' [res|e]] eqn:H;
    simpl.
  - apply search_Ok_inv in H. destruct H as [values [Hm [Hlen [-> _]]]].
    repeat split; try (now apply set_similarities_column).
    exists values. split; [assumption|].
    unfold set_similarities. rewrite map_map.
    clear Hm. revert values Hlen.
    induction df as [|r d IH]; intros [|v vs] Hlen; simpl in *;
      try discriminate; [reflexivity|].
    f_equal. apply IH. now inversion Hlen.
  - apply search_Raise_inv in H. destruct H as [-> _]. repeat split.
Qed.

(** C8, as the code has it.  [search_reviews] and [search_functions] write
    the column [similarities] of the caller's frame and nothing else: the
    rows, their order and every other column stay as they were, and a call
    that raises leaves the whole frame as it was.  The query is a value
    and the embedding service is outside the model. *)
Theorem search_writes_only_similarities :
  forall (get_embedding : string -> vector) (argsort : list float -> list nat)
         (df : DataFrame) (q : string) (n : option Z),
    (let df' := fst (search_reviews get_embedding argsort df q n) in
     map label df' = map label df /\
     map text df' = map text df /\
     map ada_embedding df' = map ada_embedding df /\
     map code_embedding df' = map code_embedding df /\
     match snd (search_reviews get_embedding argsort df q n) with
     | Ok _ => exists values,
         mapM (fun x => cosine_similarity x (get_embedding q))
              (map ada_embedding df) = Ok values /\
         map similarities df' = map Some values
     | Raise _ => df' = df
     end) /\
    (let df' := fst (search_functions get_embedding argsort df q n) in
     map label df' = map label df /\
     map text df' = map text df /\
     map ada_embedding df' = map ada_embedding df /\
     map code_embedding df' = map code_embedding df /\
     match snd (search_functions get_embedding argsort df q n) with
     | Ok _ => exists values,
         mapM (fun x => cosine_similarity x (get_embedding q))
              (map code_embedding df) = Ok values /\
         map similarities df' = map Some values
     | Raise _ => df' = df
     end).
Proof.
  intros ge argsort df q n. split; apply search_frame; reflexivity.
Qed.

(** C8 as stated fails: the call writes the column [similarities] of the
    frame it is given. *)
Lemma frame_is_written_counterexample :
  map similarities example_df = [None; None; None] /\
  map similarities
      (fst (search_reviews example_embedding insertion_argsort example_df
              "query" (Some 2%Z)))
    = [Some 1; Some 0; Some (1 / (sqrt 2 * 1))]%float.
Proof. split; reflexivity. Qed.

(** * The worked example *)

Lemma StronglySorted_three {A : Type} (R : A -> A -> Prop) (a b c : A) :
  StronglySorted R [a; b; c] -> R a b /\ R a c /\ R b c.
Proof.
  intros H. apply StronglySorted_inv in H. destruct H as [H Ha].
  apply StronglySorted_inv in H. destruct H as [_ Hb].
  inversion Ha as [|? ? Hab Ha']. inversion Ha' as [|? ? Hac _].
  inversion Hb as [|? ? Hbc _]. auto.
Qed.

Lemma NoDup_three {A : Type} (a b c : A) :
  NoDup [a; b; c] -> a <> b /\ a <> c /\ b <> c.
Proof.
  intros H. inversion H as [|? ? Ha H']. inversion H' as [|? ? Hb _].
  simpl in *. repeat split; intros ->; tauto.
Qed.

(** The contract leaves one answer for the three similarities of the
    example, which pandas hands to the kernel in reverse. *)
Lemma argsort_example (argsort : list float -> list nat) :
  argsort_spec argsort ->
  argsort [1 / (sqrt 2 * 1); 0; 1]%float = [1; 0; 2].
Proof.
  intros Hspec.
  destruct (Hspec [1 / (sqrt 2 * 1); 0; 1]%float) as [Hperm Hsorted].
  destruct (argsort [1 / (sqrt 2 * 1); 0; 1]%float) as [|x [|y [|z [|w p]]]];
    try (apply Permutation_length in Hperm; discriminate).
  assert (Hx : In x [0; 1; 2]) by (apply (Permutation_in _ Hperm); simpl; auto).
  assert (Hy : In y [0; 1; 2]) by (apply (Permutation_in _ Hperm); simpl; auto).
  assert (Hz : In z [0; 1; 2]) by (apply (Permutation_in _ Hperm); simpl; auto).
  assert (Hnd : NoDup [x; y; z]).
  { apply (Permutation_NoDup (Permutation_sym Hperm)). apply seq_NoDup. }
  apply NoDup_three in Hnd. destruct Hnd as [Hxy [Hxz Hyz]].
  apply StronglySorted_three in Hsorted. destruct Hsorted as [H1 [H2 H3]].
  simpl in Hx, Hy, Hz.
  destruct Hx as [<-|[<-|[<-|[]]]], Hy as [<-|[<-|[<-|[]]]],
           Hz as [<-|[<-|[<-|[]]]];
    try congruence; try discriminate H1; try discriminate H2;
    try discriminate H3.
Qed.

(** C9.  For the candidates a = [[1, 0]], b = [[0, 1]], c = [[1, 1]], a
    query embedded as [[1, 0]] and [n = 2], [search_reviews] returns the
    rows a and c in this order, with the similarities 1 and 1/sqrt 2, that
    is with the cosine distances 0 and 1 - 1/sqrt 2, which lies between
    0.28515625 and 0.294921875 and so is 0.29 to two decimals. *)
Theorem worked_example :
  forall (get_embedding : string -> vector) (argsort : list float -> list nat)
         (q : string),
    argsort_spec argsort ->
    get_embedding q = [1; 0]%float ->
    snd (search_reviews get_embedding argsort example_df q (Some 2%Z))
      = Ok [ranked "a" [1; 0] 1; ranked "c" [1; 1] (1 / (sqrt 2 * 1))]%float /\
    cosine_distance [1; 0]%float [1; 0]%float = Ok 0%float /\
    cosine_distance [1; 1]%float [1; 0]%float
      = Ok (1 - 1 / (sqrt 2 * 1))%float /\
    (0.28515625 <? 1 - 1 / (sqrt 2 * 1))%float = true /\
    (1 - 1 / (sqrt 2 * 1) <? 0.294921875)%float = true.
Proof.
  intros ge argsort q Hspec Hq. split; [|repeat split].
  unfold search_reviews. rewrite Hq.
  change (mapM (fun x => cosine_similarity x [1; 0]%float)
               (map ada_embedding example_df))
    with (@Ok (list float) [1; 0; 1 / (sqrt 2 * 1)]%float).
  cbv beta iota zeta.
  unfold sort_values_similarities_desc, nargsort_desc.
  change (rev (np.take nan
            (map similarity
               (set_similarities example_df [1; 0; 1 / (sqrt 2 * 1)]%float))
            (filter _ _)))
    with [1 / (sqrt 2 * 1); 0; 1]%float.
  rewrite (argsort_example argsort Hspec).
  reflexivity.
Qed.

Lemma worked_example_witness :
  argsort_spec insertion_argsort /\
  example_embedding "query" = [1; 0]%float /\
  snd (search_reviews example_embedding insertion_argsort example_df "query"
         (Some 2%Z))
    = Ok [ranked "a" [1; 0] 1; ranked "c" [1; 1] (1 / (sqrt 2 * 1))]%float.
Proof.
  split; [exact insertion_argsort_spec|]. split; [reflexivity|].
  exact (proj1 (worked_example example_embedding insertion_argsort "query"
                  insertion_argsort_spec eq_refl)).
Defined.

(** * Further properties of the three functions *)

Lemma cosine_similarity_Ok_inv (a b : vector) (s : float) :
  cosine_similarity a b = Ok s ->
  length a = length b /\
  s = (np.inner a b / (np.linalg_norm a * np.linalg_norm b))%float.
Proof.
  unfold cosine_similarity, np.dot.
  destruct (Nat.eqb (length a) (length b)) eqn:Hlen; simpl; [|discriminate].
  intros H. inversion H. split; [now apply Nat.eqb_eq|reflexivity].
Qed.

Lemma leb_nan_r (x y : float) : is_nan x = true -> (y <=? x)%float = false.
Proof.
  rewrite is_nan_spec, leb_spec. unfold SFleb.
  sf_cases (Prim2SF x); sf_cases (Prim2SF y); simpl; congruence.
Qed.

Lemma StronglySorted_app_cross {A : Type} (R : A -> A -> Prop) (l1 l2 : list A) :
  StronglySorted R (l1 ++ l2) ->
  forall x y, In x l1 -> In y l2 -> R x y.
Proof.
  induction l1 as [|a l1 IH]; simpl; intros H x y Hx Hy; [destruct Hx|].
  apply StronglySorted_inv in H. destruct H as [H Ha].
  destruct Hx as [<-|Hx]; [|now apply IH].
  rewrite Forall_forall in Ha. apply Ha, in_or_app. now right.
Qed.

Lemma head_firstn {A : Type} (n : Z) (l : list A) :
  exists k, head n l = firstn k l.
Proof. unfold head. destruct (0 <=? n)%Z; eauto. Qed.

Lemma set_similarities_overwrite (df : DataFrame) (v1 v2 : list float) :
  length v1 = length df -> length v2 = length df ->
  set_similarities (set_similarities df v1) v2 = set_similarities df v2.
Proof.
  unfold set_similarities. revert v1 v2.
  induction df as [|r d IH]; intros [|x v1] [|y v2] H1 H2; simpl in *;
    try discriminate; [reflexivity|].
  f_equal. apply IH; congruence.
Qed.

Section Rows.

Variable f : vector -> result float.
Variable column : Row -> vector.

Hypothesis column_kept :
  forall r v, column (mkRow (label r) (text r) (ada_embedding r)
                            (code_embedding r) (Some v)) = column r.

(** Each row of the frame carries, after the assignment, the value that
    [f] gave for its embedding. *)
Lemma set_similarities_rows (df : DataFrame) (values : list float) :
  mapM f (map column df) = Ok values ->
  Forall (fun r => f (column r) = Ok (similarity r) /\
                   similarities r = Some (similarity r))
         (set_similarities df values).
Proof.
  revert values. induction df as [|r d IH]; simpl; intros values H.
  - inversion H. constructor.
  - destruct (f (column r)) as [v|] eqn:Hv; simpl in H; [|discriminate].
    destruct (mapM f (map column d)) as [vs|] eqn:Hvs; simpl in H; [|discriminate].
    inversion H; subst. unfold set_similarities. simpl. constructor.
    + rewrite column_kept. split; [exact Hv|reflexivity].
    + now apply IH.
Qed.

End Rows.

Section SearchResult.

Variable get_embedding : string -> vector.
Variable argsort : list float -> list nat.
Variable column : Row -> vector.

Hypothesis argsort_ok : argsort_spec argsort.
Hypothesis column_kept :
  forall r v, column (mkRow (label r) (text r) (ada_embedding r)
                            (code_embedding r) (Some v)) = column r.

(** The result is the head of a ranking of the whole frame: what is cut
    off ranks behind every row that is returned. *)
Lemma search_split (df : DataFrame) (q : string) (n : option Z)
    (df' res : DataFrame) :
  search get_embedding argsort column df q n = (df', Ok res) ->
  exists rest,
    Permutation (res ++ rest) df' /\
    forall r r', In r res -> In r' rest ->
                 ranks_before (similarity r) (similarity r') = true.
Proof.
  intros H. apply search_Ok_inv in H. destruct H as [values [_ [_ [_ ->]]]].
  destruct (head_firstn (default_n n) (sort_values_similarities_desc argsort df'))
    as [k ->].
  exists (skipn k (sort_values_similarities_desc argsort df')). split.
  - rewrite firstn_skipn. now apply sort_values_Permutation.
  - intros r r' Hr Hr'.
    pose proof (sort_values_sorted argsort argsort_ok df') as Hs.
    rewrite <- (firstn_skipn k (sort_values_similarities_desc argsort df')) in Hs.
    rewrite map_app in Hs.
    apply (StronglySorted_app_cross _ _ _ Hs); now apply in_map.
Qed.

Lemma search_row_similarity (df : DataFrame) (q : string) (n : option Z)
    (df' res : DataFrame) (r : Row) :
  search get_embedding argsort column df q n = (df', Ok res) ->
  In r res ->
  In r df' /\
  cosine_similarity (column r) (get_embedding q) = Ok (similarity r) /\
  similarities r = Some (similarity r).
Proof.
  intros H Hr.
  destruct (search_split df q n df' res H) as [rest [Hperm _]].
  assert (Hin : In r df').
  { apply (Permutation_in _ Hperm), in_or_app. now left. }
  split; [exact Hin|].
  apply search_Ok_inv in H. destruct H as [values [Hm [_ [-> _]]]].
  pose proof (set_similarities_rows _ column column_kept df values Hm) as Hrows.
  rewrite Forall_forall in Hrows. now apply Hrows.
Qed.

(** A row whose similarity is not a number is followed by such rows
    only. *)
Lemma search_nan_last (df : DataFrame) (q : string) (n : option Z)
    (df' res : DataFrame) (i j : nat) :
  search get_embedding argsort column df q n = (df', Ok res) ->
  i < j < length res ->
  is_nan (similarity (nth i res empty_row)) = true ->
  is_nan (similarity (nth j res empty_row)) = true.
Proof.
  intros H Hij Hnan.
  pose proof (search_sorted get_embedding argsort argsort_ok column df q n df' res H)
    as Hs.
  destruct (descending_nth (map similarity res) i j Hs) as [Hrank _].
  { now rewrite length_map. }
  change nan with (similarity empty_row) in Hrank.
  rewrite !map_nth in Hrank. unfold ranks_before in Hrank.
  rewrite (leb_nan_r _ _ Hnan), orb_false_r in Hrank. exact Hrank.
Qed.

End SearchResult.

(** X1.  Every row that [search_reviews] or [search_functions] returns is
    a row of the frame as the call leaves it, and the value in its column
    [similarities] is the cosine similarity of its embedding and the
    embedding of the query. *)
Theorem result_similarity_is_cosine :
  forall (get_embedding : string -> vector) (argsort : list float -> list nat),
    argsort_spec argsort ->
    (forall df q n df' res r,
        search_reviews get_embedding argsort df q n = (df', Ok res) ->
        In r res ->
        In r df' /\
        cosine_similarity (ada_embedding r) (get_embedding q)
          = Ok (similarity r) /\
        similarities r = Some (similarity r)) /\
    (forall df q n df' res r,
        search_functions get_embedding argsort df q n = (df', Ok res) ->
        In r res ->
        In r df' /\
        cosine_similarity (code_embedding r) (get_embedding q)
          = Ok (similarity r) /\
        similarities r = Some (similarity r)).
Proof.
  intros ge argsort Hspec. split; intros df q n df' res r H Hr.
  - apply (search_row_similarity ge argsort ada_embedding Hspec
             (fun _ _ => eq_refl) df q n df' res r H Hr).
  - apply (search_row_similarity ge argsort code_embedding Hspec
             (fun _ _ => eq_refl) df q n df' res r H Hr).
Qed.

Lemma result_similarity_is_cosine_witness :
  let c := ranked "c" [1; 1]%float (1 / (sqrt 2 * 1))%float in
  argsort_spec insertion_argsort /\
  In c [ranked "a" [1; 0]%float 1%float; c] /\
  cosine_similarity (ada_embedding c) (example_embedding "query")
    = Ok (similarity c).
Proof.
  intros c.
  assert (Hin : In c [ranked "a" [1; 0]%float 1%float; c]).
  { right. left. reflexivity. }
  split; [exact insertion_argsort_spec|]. split; [exact Hin|].
  exact (proj1 (proj2 (proj1 (result_similarity_is_cosine example_embedding
                  insertion_argsort insertion_argsort_spec)
               example_df "query"%string (Some 2%Z) _ _ c eq_refl Hin))).
Defined.

(** X2.  The result of [search_reviews] or [search_functions] is the top
    of a ranking of the whole frame, whatever [n] is: together with the
    rows that are cut off it makes up the frame as the call leaves it, no
    row twice, and no row that is cut off has a greater similarity than a
    row that is returned. *)
Theorem result_is_top_of_frame :
  forall (get_embedding : string -> vector) (argsort : list float -> list nat),
    argsort_spec argsort ->
    (forall df q n df' res,
        search_reviews get_embedding argsort df q n = (df', Ok res) ->
        exists rest,
          Permutation (res ++ rest) df' /\
          forall r r', In r res -> In r' rest ->
            ranks_before (similarity r) (similarity r') = true /\
            (similarity r <? similarity r')%float = false) /\
    (forall df q n df' res,
        search_functions get_embedding argsort df q n = (df', Ok res) ->
        exists rest,
          Permutation (res ++ rest) df' /\
          forall r r', In r res -> In r' rest ->
            ranks_before (similarity r) (similarity r') = true /\
            (similarity r <? similarity r')%float = false).
Proof.
  intros ge argsort Hspec.
  assert (Hgen : forall column df q n df' res,
    search ge argsort column df q n = (df', Ok res) ->
    exists rest,
      Permutation (res ++ rest) df' /\
      forall r r', In r res -> In r' rest ->
        ranks_before (similarity r) (similarity r') = true /\
        (similarity r <? similarity r')%float = false).
  { intros column df q n df' res H.
    destruct (search_split ge argsort column Hspec df q n df' res H)
      as [rest [Hperm Hrank]].
    exists rest. split; [exact Hperm|].
    intros r r' Hr Hr'. split; [now apply Hrank|].
    now apply ranks_before_not_lt, Hrank. }
  split; intros df q n df' res; apply Hgen.
Qed.

Lemma result_is_top_of_frame_witness :
  argsort_spec insertion_argsort /\
  exists rest,
    Permutation
      ([ranked "a" [1; 0] 1; ranked "c" [1; 1] (1 / (sqrt 2 * 1))]%float ++ rest)
      [ranked "a" [1; 0] 1; ranked "b" [0; 1] 0;
       ranked "c" [1; 1] (1 / (sqrt 2 * 1))]%float /\
    forall r r',
      In r [ranked "a" [1; 0] 1; ranked "c" [1; 1] (1 / (sqrt 2 * 1))]%float ->
      In r' rest ->
      ranks_before (similarity r) (similarity r') = true /\
      (similarity r <? similarity r')%float = false.
Proof.
  split; [exact insertion_argsort_spec|].
  exact (proj1 (result_is_top_of_frame example_embedding insertion_argsort
                  insertion_argsort_spec)
               example_df "query"%string (Some 2%Z) _ _ eq_refl).
Defined.

Lemma search_frame_row
    (get_embedding : string -> vector) (argsort : list float -> list nat)
    (column : Row -> vector) (df : DataFrame) (q : string) (n : option Z)
    (df' res : DataFrame) (r : Row) :
  (forall r v, column (mkRow (label r) (text r) (ada_embedding r)
                             (code_embedding r) (Some v)) = column r) ->
  search get_embedding argsort column df q n = (df', Ok res) ->
  In r df' ->
  cosine_similarity (column r) (get_embedding q) = Ok (similarity r) /\
  similarities r = Some (similarity r).
Proof.
  intros Hcol H Hr.
  apply search_Ok_inv in H. destruct H as [values [Hm [_ [-> _]]]].
  pose proof (set_similarities_rows _ column Hcol df values Hm) as Hrows.
  rewrite Forall_forall in Hrows. now apply Hrows.
Qed.

(** X3.  A row whose embedding has only zeros gets a NaN as similarity,
    in the frame that [search_reviews] or [search_functions] leaves behind
    and in the result, and it is ranked at the end: every row after it in
    the result has a NaN similarity as well. *)
Theorem zero_embedding_rows_last :
  forall (get_embedding : string -> vector) (argsort : list float -> list nat),
    argsort_spec argsort ->
    (forall df q n df' res,
        search_reviews get_embedding argsort df q n = (df', Ok res) ->
        (forall r, In r df' \/ In r res ->
                   all_zero (ada_embedding r) ->
                   similarities r = Some (similarity r) /\
                   is_nan (similarity r) = true) /\
        (forall i j, i < j < length res ->
                     all_zero (ada_embedding (nth i res empty_row)) ->
                     is_nan (similarity (nth j res empty_row)) = true)) /\
    (forall df q n df' res,
        search_functions get_embedding argsort df q n = (df', Ok res) ->
        (forall r, In r df' \/ In r res ->
                   all_zero (code_embedding r) ->
                   similarities r = Some (similarity r) /\
                   is_nan (similarity r) = true) /\
        (forall i j, i < j < length res ->
                     all_zero (code_embedding (nth i res empty_row)) ->
                     is_nan (similarity (nth j res empty_row)) = true)).
Proof.
  intros ge argsort Hspec.
  assert (Hgen : forall column,
    (forall r v, column (mkRow (label r) (text r) (ada_embedding r)
                               (code_embedding r) (Some v)) = column r) ->
    forall df q n df' res,
      search ge argsort column df q n = (df', Ok res) ->
      (forall r, In r df' \/ In r res ->
                 all_zero (column r) ->
                 similarities r = Some (similarity r) /\
                 is_nan (similarity r) = true) /\
      (forall i j, i < j < length res ->
                   all_zero (column (nth i res empty_row)) ->
                   is_nan (similarity (nth j res empty_row)) = true)).
  { intros column Hcol df q n df' res H.
    assert (Hrow : forall r, In r df' \/ In r res -> all_zero (column r) ->
              similarities r = Some (similarity r) /\
              is_nan (similarity r) = true).
    { intros r Hr Hzero.
      assert (Hin : In r df').
      { destruct Hr as [Hr|Hr]; [exact Hr|].
        now destruct (search_row_similarity ge argsort column Hspec Hcol
                        df q n df' res r H Hr) as [Hin _]. }
      destruct (search_frame_row ge argsort column df q n df' res r Hcol H Hin)
        as [Hcos Hsome].
      split; [exact Hsome|].
      apply cosine_similarity_Ok_inv in Hcos. destruct Hcos as [_ ->].
      apply similarity_quotient_nan. now left. }
    split; [exact Hrow|].
    intros i j Hij Hzero.
    apply (search_nan_last ge argsort column Hspec df q n df' res i j H Hij).
    apply Hrow; [|exact Hzero]. right. apply nth_In. lia. }
  split; intros df q n df' res; apply Hgen; reflexivity.
Qed.

Lemma zero_embedding_rows_last_witness :
  let res := [ranked "a" [1; 0] 1; ranked "z" [0; 0] nan;
              ranked "y" [0; 0] nan]%float in
  argsort_spec insertion_argsort /\
  (forall r, In r res -> all_zero (ada_embedding r) ->
             similarities r = Some (similarity r) /\
             is_nan (similarity r) = true) /\
  (forall i j, i < j < length res ->
               all_zero (ada_embedding (nth i res empty_row)) ->
               is_nan (similarity (nth j res empty_row)) = true).
Proof.
  intros res.
  split; [exact insertion_argsort_spec|].
  destruct (proj1 (zero_embedding_rows_last example_embedding insertion_argsort
                     insertion_argsort_spec)
                  [candidate "z" [0; 0]; candidate "a" [1; 0];
                   candidate "y" [0; 0]]%float
                  "query"%string None _ res eq_refl) as [Hrow Hlast].
  split; [|exact Hlast].
  intros r Hr. apply Hrow. now right.
Defined.

Lemma search_negative_n
    (get_embedding : string -> vector) (argsort : list float -> list nat)
    (column : Row -> vector) (df : DataFrame) (q : string) (n : Z)
    (df' res : DataFrame) :
  argsort_spec argsort ->
  search get_embedding argsort column df q (Some n) = (df', Ok res) ->
  (n < 0)%Z ->
  exists rest,
    search get_embedding argsort column df q (Some (Z.of_nat (length df)))
      = (df', Ok (res ++ rest)) /\
    length rest = Nat.min (Z.to_nat (- n)) (length df) /\
    length res = length df - Z.to_nat (- n).
Proof.
  intros Hspec H Hn. apply search_Ok_inv in H.
  destruct H as [values [Hm [Hlen [-> ->]]]]. simpl.
  set (df' := set_similarities df values).
  assert (Hfull : length (sort_values_similarities_desc argsort df') = length df).
  { rewrite (Permutation_length (sort_values_Permutation argsort Hspec _)).
    apply (set_similarities_length df values Hlen). }
  unfold head. destruct (Z.leb_spec 0 n); [lia|]. rewrite Hfull.
  exists (skipn (length df - Z.to_nat (- n))
                (sort_values_similarities_desc argsort df')).
  split; [|split].
  - unfold search. rewrite Hm. fold df'. simpl.
    rewrite head_all by lia. now rewrite firstn_skipn.
  - rewrite length_skipn, Hfull. lia.
  - rewrite length_firstn, Hfull. lia.
Qed.

(** X4.  A negative [n] is handed to [head] as it is: [search_reviews]
    and [search_functions] then return the ranking of the whole frame
    (what the call with [n = len(df)] returns) without its last [-n] rows,
    and no row when the frame has at most [-n] rows. *)
Theorem negative_n_drops_last_rows :
  forall (get_embedding : string -> vector) (argsort : list float -> list nat),
    argsort_spec argsort ->
    (forall df q n df' res,
        search_reviews get_embedding argsort df q (Some n) = (df', Ok res) ->
        (n < 0)%Z ->
        exists rest,
          search_reviews get_embedding argsort df q (Some (Z.of_nat (length df)))
            = (df', Ok (res ++ rest)) /\
          length rest = Nat.min (Z.to_nat (- n)) (length df) /\
          length res = length df - Z.to_nat (- n)) /\
    (forall df q n df' res,
        search_functions get_embedding argsort df q (Some n) = (df', Ok res) ->
        (n < 0)%Z ->
        exists rest,
          search_functions get_embedding argsort df q (Some (Z.of_nat (length df)))
            = (df', Ok (res ++ rest)) /\
          length rest = Nat.min (Z.to_nat (- n)) (length df) /\
          length res = length df - Z.to_nat (- n)).
Proof.
  intros ge argsort Hspec. split; intros df q n df' res H Hn.
  - exact (search_negative_n ge argsort ada_embedding df q n df' res
             Hspec H Hn).
  - exact (search_negative_n ge argsort code_embedding df q n df' res
             Hspec H Hn).
Qed.

Lemma negative_n_drops_last_rows_witness :
  let res := [ranked "a" [1; 0] 1; ranked "c" [1; 1] (1 / (sqrt 2 * 1))]%float in
  argsort_spec insertion_argsort /\
  (-1 < 0)%Z /\
  exists rest,
    snd (search_reviews example_embedding insertion_argsort example_df "query"
           (Some (Z.of_nat (length example_df))))
      = Ok (res ++ rest) /\
    length rest = Nat.min (Z.to_nat (- -1)) (length example_df) /\
    length res = length example_df - Z.to_nat (- -1).
Proof.
  intros res.
  split; [exact insertion_argsort_spec|]. split; [reflexivity|].
  destruct (proj1 (negative_n_drops_last_rows example_embedding insertion_argsort
                     insertion_argsort_spec)
                  example_df "query"%string (-1)%Z _ res eq_refl eq_refl)
    as [rest [Hfull Hlen]].
  exists rest. split; [now rewrite Hfull|exact Hlen].
Defined.

Lemma search_prefix
    (get_embedding : string -> vector) (argsort : list float -> list nat)
    (column : Row -> vector) (df : DataFrame) (q : string) (n m : option Z)
    (df1 res1 df2 res2 : DataFrame) :
  search get_embedding argsort column df q n = (df1, Ok res1) ->
  search get_embedding argsort column df q m = (df2, Ok res2) ->
  (0 <= default_n n <= default_n m)%Z ->
  df1 = df2 /\ res1 = firstn (Z.to_nat (default_n n)) res2.
Proof.
  intros H1 H2 Hnm.
  apply search_Ok_inv in H1. destruct H1 as [v1 [Hm1 [_ [-> ->]]]].
  apply search_Ok_inv in H2. destruct H2 as [v2 [Hm2 [_ [-> ->]]]].
  assert (v1 = v2) by congruence. subst v2.
  split; [reflexivity|]. unfold head.
  destruct (Z.leb_spec 0 (default_n n)); [|lia].
  destruct (Z.leb_spec 0 (default_n m)); [|lia].
  rewrite firstn_firstn. f_equal. lia.
Qed.

(** X5.  Asking for fewer rows gives a prefix of what asking for more
    gives: for [0 <= n <= m] the two calls leave the same frame behind and
    the result for [n] is the first [n] rows of the result for [m]. *)
Theorem smaller_n_is_prefix :
  forall (get_embedding : string -> vector) (argsort : list float -> list nat),
    (forall df q n m df1 res1 df2 res2,
        search_reviews get_embedding argsort df q n = (df1, Ok res1) ->
        search_reviews get_embedding argsort df q m = (df2, Ok res2) ->
        (0 <= default_n n <= default_n m)%Z ->
        df1 = df2 /\ res1 = firstn (Z.to_nat (default_n n)) res2) /\
    (forall df q n m df1 res1 df2 res2,
        search_functions get_embedding argsort df q n = (df1, Ok res1) ->
        search_functions get_embedding argsort df q m = (df2, Ok res2) ->
        (0 <= default_n n <= default_n m)%Z ->
        df1 = df2 /\ res1 = firstn (Z.to_nat (default_n n)) res2).
Proof.
  intros ge argsort. split; intros df q n m df1 res1 df2 res2 H1 H2 Hnm.
  - exact (search_prefix ge argsort ada_embedding df q n m df1 res1 df2 res2
             H1 H2 Hnm).
  - exact (search_prefix ge argsort code_embedding df q n m df1 res1 df2 res2
             H1 H2 Hnm).
Qed.

Lemma smaller_n_is_prefix_witness :
  (0 <= default_n (Some 1%Z) <= default_n None)%Z /\
  [ranked "a" [1; 0] 1]%float
    = firstn (Z.to_nat (default_n (Some 1%Z)))
        [ranked "a" [1; 0] 1; ranked "c" [1; 1] (1 / (sqrt 2 * 1));
         ranked "b" [0; 1] 0]%float.
Proof.
  assert (Hnm : (0 <= default_n (Some 1%Z) <= default_n None)%Z).
  { split; discriminate. }
  split; [exact Hnm|].
  exact (proj2 (proj1 (smaller_n_is_prefix example_embedding insertion_argsort)
                 example_df "query"%string (Some 1%Z) None _ _ _ _
                 eq_refl eq_refl Hnm)).
Defined.

Lemma search_after_search
    (get_embedding : string -> vector) (argsort : list float -> list nat)
    (column1 column2 : Row -> vector)
    (df : DataFrame) (q1 q2 : string) (n1 n2 : option Z) :
  (forall r v, column2 (mkRow (label r) (text r) (ada_embedding r)
                              (code_embedding r) (Some v)) = column2 r) ->
  let df1 := fst (search get_embedding argsort column1 df q1 n1) in
  match snd (search get_embedding argsort column2 df q2 n2) with
  | Ok _ => search get_embedding argsort column2 df1 q2 n2
            = search get_embedding argsort column2 df q2 n2
  | Raise e => search get_embedding argsort column2 df1 q2 n2 = (df1, Raise e)
  end.
Proof.
  intros Hcol.
  destruct (search get_embedding argsort column1 df q1 n1) as [df1 [res1|e1]] eqn:H1.
  - apply search_Ok_inv in H1. destruct H1 as [v1 [_ [Hlen1 [-> _]]]]. simpl.
    unfold search.
    rewrite (set_similarities_column df v1 Hlen1 column2 Hcol).
    destruct (mapM _ (map column2 df)) as [v2|e2] eqn:Hm; simpl; [|reflexivity].
    apply mapM_length in Hm. rewrite length_map in Hm.
    now rewrite (set_similarities_overwrite df v1 v2 Hlen1 Hm).
  - destruct (search_Raise_inv _ _ _ _ _ _ _ _ H1) as [-> _]. simpl.
    destruct (search get_embedding argsort column2 df q2 n2) as [df2 [res2|e2]] eqn:H2;
      simpl; [reflexivity|].
    now destruct (search_Raise_inv _ _ _ _ _ _ _ _ H2) as [-> _].
Qed.

(** X6.  A search leaves no trace for the next one.  On the frame that an
    earlier call of [search_reviews] or [search_functions] left behind,
    with whatever query and [n], a call returns what it returns on the
    frame as it was before, and leaves the same frame behind; when it
    raises, it raises the same exception and leaves the frame as the
    earlier call left it. *)
Theorem search_independent_of_earlier_search :
  forall (get_embedding : string -> vector) (argsort : list float -> list nat)
         (df : DataFrame) (q1 q2 : string) (n1 n2 : option Z),
    (let df1 := fst (search_reviews get_embedding argsort df q1 n1) in
     match snd (search_reviews get_embedding argsort df q2 n2) with
     | Ok _ => search_reviews get_embedding argsort df1 q2 n2
               = search_reviews get_embedding argsort df q2 n2
     | Raise e => search_reviews get_embedding argsort df1 q2 n2 = (df1, Raise e)
     end) /\
    (let df1 := fst (search_functions get_embedding argsort df q1 n1) in
     match snd (search_functions get_embedding argsort df q2 n2) with
     | Ok _ => search_functions get_embedding argsort df1 q2 n2
               = search_functions get_embedding argsort df q2 n2
     | Raise e => search_functions get_embedding argsort df1 q2 n2 = (df1, Raise e)
     end) /\
    (let df1 := fst (search_reviews get_embedding argsort df q1 n1) in
     match snd (search_functions get_embedding argsort df q2 n2) with
     | Ok _ => search_functions get_embedding argsort df1 q2 n2
               = search_functions get_embedding argsort df q2 n2
     | Raise e => search_functions get_embedding argsort df1 q2 n2 = (df1, Raise e)
     end) /\
    (let df1 := fst (search_functions get_embedding argsort df q1 n1) in
     match snd (search_reviews get_embedding argsort df q2 n2) with
     | Ok _ => search_reviews get_embedding argsort df1 q2 n2
               = search_reviews get_embedding argsort df q2 n2
     | Raise e => search_reviews get_embedding argsort df1 q2 n2 = (df1, Raise e)
     end).
Proof.
  intros ge argsort df q1 q2 n1 n2. repeat split.
  - exact (search_after_search ge argsort ada_embedding ada_embedding
             df q1 q2 n1 n2 (fun _ _ => eq_refl)).
  - exact (search_after_search ge argsort code_embedding code_embedding
             df q1 q2 n1 n2 (fun _ _ => eq_refl)).
  - exact (search_after_search ge argsort ada_embedding code_embedding
             df q1 q2 n1 n2 (fun _ _ => eq_refl)).
  - exact (search_after_search ge argsort code_embedding ada_embedding
             df q1 q2 n1 n2 (fun _ _ => eq_refl)).
Qed.

(** ** The source string of [recommendations_from_strings] *)

Lemma getitem_out_of_range {A : Type} (xs : list A) (i : Z) :
  (i < - Z.of_nat (length xs) \/ Z.of_nat (length xs) <= i)%Z ->
  getitem xs i = Raise IndexError.
Proof.
  intros Hi. unfold getitem.
  set (j := (if (i <? 0)%Z then (i + Z.of_nat (length xs))%Z else i)).
  assert (Hj : ((0 <=? j) && (j <? Z.of_nat (length xs)))%Z = false).
  { apply andb_false_iff. unfold j.
    destruct (Z.ltb_spec i 0).
    - left. apply Z.leb_gt. lia.
    - right. apply Z.ltb_ge. lia. }
  now rewrite Hj.
Qed.

Lemma getitem_in_range {A : Type} (xs : list A) (i : Z) :
  (- Z.of_nat (length xs) <= i < Z.of_nat (length xs))%Z ->
  exists x,
    getitem xs i = Ok x /\
    nth_error xs (Z.to_nat (if (i <? 0)%Z then i + Z.of_nat (length xs) else i))
      = Some x.
Proof.
  intros Hi. unfold getitem.
  set (j := (if (i <? 0)%Z then (i + Z.of_nat (length xs))%Z else i)).
  assert (Hj : (0 <= j < Z.of_nat (length xs))%Z).
  { unfold j. destruct (Z.ltb_spec i 0); lia. }
  destruct (Z.leb_spec 0 j); [|lia].
  destruct (Z.ltb_spec j (Z.of_nat (length xs))); [|lia]. simpl.
  destruct (nth_error xs (Z.to_nat j)) as [x|] eqn:Hx; [eauto|].
  apply nth_error_None in Hx. lia.
Qed.

Lemma getitem_only_IndexError {A : Type} (xs : list A) (i : Z) (e : PyError) :
  getitem xs i = Raise e ->
  e = IndexError /\
  (i < - Z.of_nat (length xs) \/ Z.of_nat (length xs) <= i)%Z.
Proof.
  intros H.
  destruct (Z.lt_ge_cases i (- Z.of_nat (length xs))) as [Hlo|Hlo];
    [|destruct (Z.lt_ge_cases i (Z.of_nat (length xs))) as [Hhi|Hhi]].
  - rewrite getitem_out_of_range in H by lia. inversion H. split; [reflexivity|lia].
  - destruct (getitem_in_range xs i) as [x [Hx _]]; [lia|]. congruence.
  - rewrite getitem_out_of_range in H by lia. inversion H. split; [reflexivity|lia].
Qed.

Lemma getitem_wrap {A : Type} (xs : list A) (i : Z) :
  (- Z.of_nat (length xs) <= i < 0)%Z ->
  getitem xs i = getitem xs (i + Z.of_nat (length xs)).
Proof.
  intros Hi. unfold getitem.
  destruct (Z.ltb_spec i 0); [|lia].
  destruct (Z.ltb_spec (i + Z.of_nat (length xs)) 0); [lia|]. reflexivity.
Qed.

(** X7.  [recommendations_from_strings] raises [IndexError] exactly when
    [index_of_source_string] lies outside [-len(strings) .. len(strings) -
    1]; so it does for every index when there are no strings. *)
Theorem source_index_out_of_range :
  forall (embedding_from_string : string -> vector)
         (argsort : list float -> list nat) (strings : list string) (i : Z),
    recommendations_from_strings embedding_from_string argsort strings i
      = Raise IndexError
    <->
    (i < - Z.of_nat (length strings) \/ Z.of_nat (length strings) <= i)%Z.
Proof.
  intros efs argsort strings i. unfold recommendations_from_strings. split.
  - destruct (getitem (map efs strings) i) as [query|e] eqn:Hq; simpl.
    + unfold distances_from_embeddings.
      destruct (mapM _ (map efs strings)) as [ds|e] eqn:Hd; simpl; [discriminate|].
      intros H. inversion H; subst.
      apply (mapM_only_error _ ValueError) in Hd; [discriminate|].
      intros x e. apply spatial_distance_cosine_only_ValueError.
    + intros _. apply getitem_only_IndexError in Hq.
      rewrite length_map in Hq. tauto.
  - intros Hi. rewrite getitem_out_of_range; [reflexivity|].
    now rewrite length_map.
Qed.

(** X8.  A negative [index_of_source_string] counts from the end of the
    list: for [-len(strings) <= i < 0] the call returns what it returns
    for [i + len(strings)]. *)
Theorem negative_source_index_counts_from_end :
  forall (embedding_from_string : string -> vector)
         (argsort : list float -> list nat) (strings : list string) (i : Z),
    (- Z.of_nat (length strings) <= i < 0)%Z ->
    recommendations_from_strings embedding_from_string argsort strings i
    = recommendations_from_strings embedding_from_string argsort strings
        (i + Z.of_nat (length strings)).
Proof.
  intros efs argsort strings i Hi. unfold recommendations_from_strings.
  rewrite getitem_wrap by (now rewrite length_map).
  now rewrite length_map.
Qed.

Lemma negative_source_index_counts_from_end_witness :
  (- Z.of_nat (length ["a"; "b"; "c"]%string) <= -1 < 0)%Z /\
  recommendations_from_strings example_embedding_from_string insertion_argsort
    ["a"; "b"; "c"]%string (-1)
  = recommendations_from_strings example_embedding_from_string insertion_argsort
      ["a"; "b"; "c"]%string (-1 + Z.of_nat (length ["a"; "b"; "c"]%string)).
Proof.
  assert (Hi : (- Z.of_nat (length ["a"; "b"; "c"]%string) <= -1 < 0)%Z).
  { split; [discriminate|reflexivity]. }
  split; [exact Hi|].
  exact (negative_source_index_counts_from_end example_embedding_from_string
           insertion_argsort ["a"; "b"; "c"]%string (-1)%Z Hi).
Defined.

Lemma recommendations_matching (embedding_from_string : string -> vector)
    (argsort : list float -> list nat) (strings : list string) (i : Z)
    (query : vector) :
  getitem (map embedding_from_string strings) i = Ok query ->
  (forall s, In s strings -> length (embedding_from_string s) = length query) ->
  exists indices,
    recommendations_from_strings embedding_from_string argsort strings i
      = Ok indices.
Proof.
  intros Hq Hlen. unfold recommendations_from_strings. rewrite Hq. simpl.
  unfold distances_from_embeddings.
  rewrite (mapM_total _
    (fun v => np.clip (1 - np.inner query v
                           / sqrt (np.inner query query * np.inner v v)) 0 2)%float).
  - simpl. eauto.
  - intros v Hv. apply in_map_iff in Hv. destruct Hv as [s [<- Hs]].
    unfold spatial_distance_cosine. rewrite dot_Ok; [reflexivity|].
    symmetry. now apply Hlen.
Qed.

(** X9.  [recommendations_from_strings] returns a list exactly when the
    source string exists and every string is embedded with the length of
    the source string's embedding. *)
Theorem recommendations_returns_iff :
  forall (embedding_from_string : string -> vector)
         (argsort : list float -> list nat) (strings : list string) (i : Z),
    (exists indices,
        recommendations_from_strings embedding_from_string argsort strings i
          = Ok indices)
    <->
    (exists query,
        getitem (map embedding_from_string strings) i = Ok query /\
        forall s, In s strings ->
                  length (embedding_from_string s) = length query).
Proof.
  intros efs argsort strings i. split.
  - intros [indices H]. unfold recommendations_from_strings in H.
    destruct (getitem (map efs strings) i) as [query|e] eqn:Hq; simpl in H;
      [|discriminate].
    exists query. split; [reflexivity|]. intros s Hs.
    destruct (Nat.eq_dec (length (efs s)) (length query)) as [Heq|Hne];
      [exact Heq|exfalso].
    unfold distances_from_embeddings in H.
    rewrite (mapM_raise _ ValueError) in H; [discriminate| |].
    + intros x e. apply spatial_distance_cosine_only_ValueError.
    + exists (efs s). split; [now apply in_map|].
      apply spatial_distance_cosine_Raise. congruence.
  - intros [query [Hq Hlen]].
    now apply (recommendations_matching efs argsort strings i query).
Qed.

Lemma source_index_out_of_range_witness :
  (3 < - Z.of_nat (length ["a"; "b"; "c"]%string)
   \/ Z.of_nat (length ["a"; "b"; "c"]%string) <= 3)%Z /\
  recommendations_from_strings example_embedding_from_string insertion_argsort
    ["a"; "b"; "c"]%string 3
  = Raise IndexError.
Proof.
  assert (Hi : (3 < - Z.of_nat (length ["a"; "b"; "c"]%string)
                \/ Z.of_nat (length ["a"; "b"; "c"]%string) <= 3)%Z).
  { right. discriminate. }
  split; [exact Hi|].
  exact (proj2 (source_index_out_of_range example_embedding_from_string
                  insertion_argsort ["a"; "b"; "c"]%string 3%Z) Hi).
Defined.

Lemma recommendations_returns_iff_witness :
  (exists query,
      getitem (map example_embedding_from_string ["a"; "b"; "c"]%string) 0
        = Ok query /\
      forall s, In s ["a"; "b"; "c"]%string ->
                length (example_embedding_from_string s) = length query) /\
  exists indices,
    recommendations_from_strings example_embedding_from_string insertion_argsort
      ["a"; "b"; "c"]%string 0
    = Ok indices.
Proof.
  assert (H : exists query,
      getitem (map example_embedding_from_string ["a"; "b"; "c"]%string) 0
        = Ok query /\
      forall s, In s ["a"; "b"; "c"]%string ->
                length (example_embedding_from_string s) = length query).
  { exists [1; 0]%float. split; [reflexivity|].
    intros s [<-|[<-|[<-|[]]]]; reflexivity. }
  split; [exact H|].
  exact (proj2 (recommendations_returns_iff example_embedding_from_string
                  insertion_argsort ["a"; "b"; "c"]%string 0%Z) H).
Defined.

Lemma example_embedding_from_string_length (s : string) :
  length (example_embedding_from_string s) = 2.
Proof.
  unfold example_embedding_from_string.
  destruct (String.eqb s "a"); [reflexivity|].
  destruct (String.eqb s "b"); reflexivity.
Qed.

Lemma embed_code_column (get_embedding : string -> vector) (df : DataFrame) (r : Row) :
  In r (embed_code get_embedding df) ->
  code_embedding r = get_embedding (text r).
Proof.
  unfold embed_code. rewrite in_map_iff. intros [r0 [<- _]]. reflexivity.
Qed.

(** X10.  With an embedding service whose vectors all have one length,
    the frame that the code-search cell prepares can always be searched:
    [search_functions] raises nothing on it, whatever the query and [n],
    and [recommendations_from_strings] raises nothing for an index within
    [-len(strings) .. len(strings) - 1]. *)
Theorem fixed_dimension_never_raises :
  forall (get_embedding : string -> vector) (argsort : list float -> list nat),
    (forall s t, length (get_embedding s) = length (get_embedding t)) ->
    (forall df q n,
        exists df' res,
          search_functions get_embedding argsort (embed_code get_embedding df) q n
            = (df', Ok res)) /\
    (forall strings i,
        (- Z.of_nat (length strings) <= i < Z.of_nat (length strings))%Z ->
        exists indices,
          recommendations_from_strings get_embedding argsort strings i
            = Ok indices).
Proof.
  intros ge argsort Hdim. split.
  - intros df q n.
    destruct (search_matching ge argsort code_embedding
                (embed_code ge df) q n) as [values [_ H]].
    + intros r Hr. rewrite (embed_code_column ge df r Hr). apply Hdim.
    + eauto.
  - intros strings i Hi.
    destruct (getitem_in_range (map ge strings) i) as [query [Hq Hn]].
    { now rewrite length_map. }
    apply (recommendations_matching ge argsort strings i query Hq).
    intros s _. apply nth_error_In, in_map_iff in Hn.
    destruct Hn as [t [<- _]]. apply Hdim.
Qed.

Lemma fixed_dimension_never_raises_witness :
  (forall s t, length (example_embedding_from_string s)
               = length (example_embedding_from_string t)) /\
  exists df' res,
    search_functions example_embedding_from_string insertion_argsort
      (embed_code example_embedding_from_string
         [mkRow "f" "a" [] [] None; mkRow "g" "b" [] [] None])
      "c" None
    = (df', Ok res).
Proof.
  assert (Hdim : forall s t, length (example_embedding_from_string s)
                             = length (example_embedding_from_string t)).
  { intros s t. now rewrite !example_embedding_from_string_length. }
  split; [exact Hdim|].
  exact (proj1 (fixed_dimension_never_raises example_embedding_from_string
                  insertion_argsort Hdim)
               [mkRow "f" "a" [] [] None; mkRow "g" "b" [] [] None]
               "c"%string None).
Defined.

(** * The order of the ranking *)

Lemma leb_true_not_nan (x y : float) :
  (x <=? y)%float = true -> is_nan x = false /\ is_nan y = false.
Proof.
  rewrite leb_spec, !is_nan_spec. unfold SFleb.
  sf_cases (Prim2SF x); sf_cases (Prim2SF y); simpl; intros H;
    try discriminate; split; reflexivity.
Qed.

Lemma StronglySorted_nth {A : Type} (R : A -> A -> Prop) (d : A) (l : list A)
    (i j : nat) :
  StronglySorted R l -> i < j < length l -> R (nth i l d) (nth j l d).
Proof.
  intros H. revert i j.
  induction H as [|x l Hl IH Hx]; simpl; intros i j Hij; [lia|].
  destruct j as [|j]; [lia|]. destruct i as [|i].
  - rewrite Forall_forall in Hx. apply Hx, nth_In. lia.
  - apply IH. lia.
Qed.

Lemma take_nth {A : Type} (d : A) (a : list A) (idx : list nat) (k : nat) :
  k < length idx -> nth k (np.take d a idx) d = nth (nth k idx 0) a d.
Proof.
  intros Hk. unfold np.take.
  rewrite (nth_indep (map _ idx) d (nth 0 a d)) by (now rewrite length_map).
  apply (map_nth (fun i => nth i a d)).
Qed.

Lemma mapM_nth {A B : Type} (f : A -> result B) (xs : list A) (ys : list B)
    (dx : A) (dy : B) (k : nat) :
  mapM f xs = Ok ys -> k < length xs -> f (nth k xs dx) = Ok (nth k ys dy).
Proof.
  revert ys k. induction xs as [|x xs IH]; simpl; intros ys k H Hk; [lia|].
  destruct (f x) as [y|] eqn:Hy; simpl in H; [|discriminate].
  destruct (mapM f xs) as [ys'|] eqn:Hys; simpl in H; [|discriminate].
  inversion H; subst. destruct k as [|k]; simpl; [exact Hy|].
  apply IH; [reflexivity|lia].
Qed.

(** What [recommendations_from_strings] ranks: the distance of every
    string from the source string. *)
Lemma recommendations_distances (embedding_from_string : string -> vector)
    (argsort : list float -> list nat) (strings : list string) (i : Z)
    (indices : list nat) :
  recommendations_from_strings embedding_from_string argsort strings i
    = Ok indices ->
  exists query distances,
    getitem (map embedding_from_string strings) i = Ok query /\
    length distances = length strings /\
    indices = argsort distances /\
    forall k, k < length strings ->
      spatial_distance_cosine query
        (embedding_from_string (nth k strings EmptyString))
      = Ok (nth k distances nan).
Proof.
  unfold recommendations_from_strings,
    indices_of_nearest_neighbors_from_distances, distances_from_embeddings.
  destruct (getitem (map embedding_from_string strings) i) as [query|e];
    simpl; [|discriminate].
  destruct (mapM _ (map embedding_from_string strings)) as [ds|e] eqn:Hd;
    simpl; [|discriminate].
  intros H. inversion H; subst. exists query, ds.
  pose proof (mapM_length _ _ _ Hd) as Hlen. rewrite length_map in Hlen.
  repeat split; [exact Hlen|].
  intros k Hk.
  rewrite <- (map_nth embedding_from_string).
  apply (mapM_nth _ _ _ _ nan k Hd). now rewrite length_map.
Qed.

Lemma search_order
    (get_embedding : string -> vector) (argsort : list float -> list nat)
    (column : Row -> vector) (df : DataFrame) (q : string) (n : option Z)
    (df' res : DataFrame) (i j : nat) :
  argsort_spec argsort ->
  (forall r v, column (mkRow (label r) (text r) (ada_embedding r)
                             (code_embedding r) (Some v)) = column r) ->
  search get_embedding argsort column df q n = (df', Ok res) ->
  i < j < length res ->
  exists si sj,
    cosine_similarity (column (nth i res empty_row)) (get_embedding q) = Ok si /\
    cosine_similarity (column (nth j res empty_row)) (get_embedding q) = Ok sj /\
    similarities (nth i res empty_row) = Some si /\
    similarities (nth j res empty_row) = Some sj /\
    (is_nan sj = true \/ (sj <=? si)%float = true).
Proof.
  intros Hspec Hcol H Hij.
  exists (similarity (nth i res empty_row)), (similarity (nth j res empty_row)).
  destruct (search_row_similarity get_embedding argsort column Hspec Hcol
              df q n df' res (nth i res empty_row) H) as [_ [Hci Hsi]].
  { apply nth_In. lia. }
  destruct (search_row_similarity get_embedding argsort column Hspec Hcol
              df q n df' res (nth j res empty_row) H) as [_ [Hcj Hsj]].
  { apply nth_In. lia. }
  repeat (split; [assumption|]).
  pose proof (search_sorted get_embedding argsort Hspec column df q n df' res H)
    as Hs.
  destruct (descending_nth (map similarity res) i j Hs) as [Hrank _].
  { now rewrite length_map. }
  change nan with (similarity empty_row) in Hrank.
  rewrite !map_nth in Hrank. now apply orb_true_iff in Hrank.
Qed.

(** C1, as the code has it.  Under the contract of the sorting kernel,
    every row that [search_reviews] or [search_functions] returns carries
    the cosine similarity of its embedding and the embedding of the query,
    and of two rows of the result the later one has the smaller or equal
    similarity, unless its similarity is a NaN: the rows whose similarity
    is a number come by descending similarity, the rows whose similarity
    is a NaN after them.  [recommendations_from_strings] returns positions
    of strings, and of two of them the later one has the greater or equal
    cosine distance from the source string, or a NaN. *)
Theorem ranking_sorted_by_distance :
  forall (get_embedding embedding_from_string : string -> vector)
         (argsort : list float -> list nat),
    argsort_spec argsort ->
    (forall df q n df' res i j,
        search_reviews get_embedding argsort df q n = (df', Ok res) ->
        i < j < length res ->
        exists si sj,
          cosine_similarity (ada_embedding (nth i res empty_row))
                            (get_embedding q) = Ok si /\
          cosine_similarity (ada_embedding (nth j res empty_row))
                            (get_embedding q) = Ok sj /\
          similarities (nth i res empty_row) = Some si /\
          similarities (nth j res empty_row) = Some sj /\
          (is_nan sj = true \/ (sj <=? si)%float = true)) /\
    (forall df q n df' res i j,
        search_functions get_embedding argsort df q n = (df', Ok res) ->
        i < j < length res ->
        exists si sj,
          cosine_similarity (code_embedding (nth i res empty_row))
                            (get_embedding q) = Ok si /\
          cosine_similarity (code_embedding (nth j res empty_row))
                            (get_embedding q) = Ok sj /\
          similarities (nth i res empty_row) = Some si /\
          similarities (nth j res empty_row) = Some sj /\
          (is_nan sj = true \/ (sj <=? si)%float = true)) /\
    (forall strings i indices a b,
        recommendations_from_strings embedding_from_string argsort strings i
          = Ok indices ->
        a < b < length indices ->
        exists query da db,
          getitem (map embedding_from_string strings) i = Ok query /\
          nth a indices 0 < length strings /\
          nth b indices 0 < length strings /\
          spatial_distance_cosine query
            (embedding_from_string (nth (nth a indices 0) strings EmptyString))
            = Ok da /\
          spatial_distance_cosine query
            (embedding_from_string (nth (nth b indices 0) strings EmptyString))
            = Ok db /\
          (is_nan db = true \/ (da <=? db)%float = true)).
Proof.
  intros ge efs argsort Hspec.
  split; [|split].
  - intros df q n df' res i j H Hij.
    exact (search_order ge argsort ada_embedding df q n df' res i j
             Hspec (fun _ _ => eq_refl) H Hij).
  - intros df q n df' res i j H Hij.
    exact (search_order ge argsort code_embedding df q n df' res i j
             Hspec (fun _ _ => eq_refl) H Hij).
  - intros strings i indices a b H Hab.
    apply recommendations_distances in H.
    destruct H as [query [ds [Hq [Hlen [-> Hds]]]]].
    destruct (Hspec ds) as [Hperm Hsorted].
    assert (Hbound : forall k, k < length (argsort ds) ->
                               nth k (argsort ds) 0 < length strings).
    { intros k Hk. rewrite <- Hlen.
      pose proof (Permutation_seq_bound _ _ Hperm) as Hb.
      rewrite Forall_forall in Hb. apply Hb, nth_In, Hk. }
    exists query, (nth (nth a (argsort ds) 0) ds nan),
           (nth (nth b (argsort ds) 0) ds nan).
    split; [exact Hq|].
    split; [apply Hbound; lia|]. split; [apply Hbound; lia|].
    split; [apply Hds, Hbound; lia|]. split; [apply Hds, Hbound; lia|].
    pose proof (StronglySorted_nth _ nan _ a b Hsorted) as Hle.
    rewrite take_length in Hle. specialize (Hle Hab).
    rewrite !take_nth in Hle by lia.
    now apply orb_true_iff in Hle.
Qed.

Lemma ranking_sorted_by_distance_witness :
  argsort_spec insertion_argsort /\
  0 < 1 < length [ranked "a" [1; 0] 1; ranked "c" [1; 1] (1 / (sqrt 2 * 1));
                  ranked "b" [0; 1] 0]%float /\
  exists si sj,
    cosine_similarity [1; 0]%float (example_embedding "query") = Ok si /\
    cosine_similarity [1; 1]%float (example_embedding "query") = Ok sj /\
    Some 1%float = Some si /\
    Some (1 / (sqrt 2 * 1))%float = Some sj /\
    (is_nan sj = true \/ (sj <=? si)%float = true).
Proof.
  assert (Hij : 0 < 1 < length [ranked "a" [1; 0] 1;
                                ranked "c" [1; 1] (1 / (sqrt 2 * 1));
                                ranked "b" [0; 1] 0]%float).
  { simpl. lia. }
  split; [exact insertion_argsort_spec|]. split; [exact Hij|].
  exact (proj1 (ranking_sorted_by_distance example_embedding
                  example_embedding_from_string insertion_argsort
                  insertion_argsort_spec)
               example_df "query"%string None _ _ 0 1 eq_refl Hij).
Defined.

(** C1 as stated fails: a candidate with a zero vector has the similarity
    NaN and is ranked last, and a NaN is in no order with a number:
    neither is its similarity smaller or equal than that of the row before
    it, nor is that row's distance [1 - 1] smaller or equal than its
    distance [1 - nan]. *)
Lemma zero_vector_breaks_order_counterexample :
  snd (search_reviews example_embedding insertion_argsort
         [candidate "z" [0; 0]; candidate "a" [1; 0]]%float "query" None)
    = Ok [ranked "a" [1; 0] 1; ranked "z" [0; 0] nan]%float /\
  (nan <=? 1)%float = false /\
  (1 - 1 <=? 1 - nan)%float = false.
Proof. repeat split. Qed.

(** * The candidate that equals the query *)

Lemma float_leb_trans (x y z : float) :
  (x <=? y)%float = true -> (y <=? z)%float = true -> (x <=? z)%float = true.
Proof. rewrite !leb_spec. apply SFleb_trans. Qed.

Lemma eqb_leb (x y : float) :
  (x =? y)%float = true -> (x <=? y)%float = true /\ (y <=? x)%float = true.
Proof.
  rewrite eqb_spec, !leb_spec. unfold SFeqb, SFleb, SFcompare.
  change (Pos.compare_cont Eq) with Pos.compare.
  sf_cases (Prim2SF x); sf_cases (Prim2SF y); try discriminate;
    try (split; reflexivity);
    cmp_cases; simpl; try discriminate; try (split; reflexivity);
    intros _; subst; lia.
Qed.

Lemma leb_antisym (x y : float) :
  (x <=? y)%float = true -> (y <=? x)%float = true -> (x =? y)%float = true.
Proof.
  rewrite eqb_spec, !leb_spec. unfold SFeqb, SFleb, SFcompare.
  change (Pos.compare_cont Eq) with Pos.compare.
  sf_cases (Prim2SF x); sf_cases (Prim2SF y); try discriminate;
    try reflexivity;
    cmp_cases; simpl; try discriminate; try reflexivity;
    intros _ _; subst; lia.
Qed.

Lemma ltb_false_leb (x y : float) :
  is_nan x = false -> is_nan y = false ->
  (x <? y)%float = false -> (y <=? x)%float = true.
Proof.
  rewrite !is_nan_spec, ltb_spec, leb_spec. unfold SFltb, SFleb, SFcompare.
  change (Pos.compare_cont Eq) with Pos.compare.
  sf_cases (Prim2SF x); sf_cases (Prim2SF y); try discriminate;
    try reflexivity; intros _ _;
    cmp_cases; simpl; try discriminate; try reflexivity;
    intros _; subst; lia.
Qed.

Lemma ltb_not_nan_l (x y : float) : (x <? y)%float = true -> is_nan x = false.
Proof.
  rewrite ltb_spec, is_nan_spec. unfold SFltb.
  sf_cases (Prim2SF x); sf_cases (Prim2SF y); simpl; congruence.
Qed.

(** What [np.clip(x, 0.0, 2.0)] returns is a NaN or lies between 0 and
    2. *)
Lemma clip_range (x : float) :
  is_nan (np.clip x 0 2) = true \/
  ((0 <=? np.clip x 0 2)%float = true /\ (np.clip x 0 2 <=? 2)%float = true).
Proof.
  unfold np.clip. destruct (is_nan x) eqn:Hnan; [now left|right].
  destruct (x <? 0)%float eqn:Hlo; [split; reflexivity|].
  destruct (2 <? x)%float eqn:Hhi; [split; reflexivity|].
  split; now apply ltb_false_leb.
Qed.

Lemma spatial_distance_cosine_range (u v : vector) (d : float) :
  spatial_distance_cosine u v = Ok d ->
  is_nan d = true \/ ((0 <=? d)%float = true /\ (d <=? 2)%float = true).
Proof.
  unfold spatial_distance_cosine.
  destruct (np.dot u v); simpl; [|discriminate].
  intros H. inversion H. apply clip_range.
Qed.

Section SourceString.

Variable embedding_from_string : string -> vector.
Variable argsort : list float -> list nat.
Hypothesis argsort_ok : argsort_spec argsort.

Variable strings : list string.
Variable i : Z.
Variable indices : list nat.
Variable query : vector.

Hypothesis returned :
  recommendations_from_strings embedding_from_string argsort strings i
    = Ok indices.
Hypothesis source : getitem (map embedding_from_string strings) i = Ok query.

Let src : nat :=
  Z.to_nat (if (i <? 0)%Z then i + Z.of_nat (length strings) else i).

Lemma source_position :
  src < length strings /\
  embedding_from_string (nth src strings EmptyString) = query.
Proof.
  pose proof (getitem_Ok_inv _ _ _ source) as H. simpl in H.
  rewrite length_map in H. fold src in H. destruct H as [Hlt Hn]. split; [exact Hlt|].
  rewrite <- (map_nth embedding_from_string).
  now apply nth_error_nth.
Qed.

Lemma source_ranked :
  exists distances,
    length distances = length strings /\
    indices = argsort distances /\
    (forall k, k < length strings ->
       spatial_distance_cosine query
         (embedding_from_string (nth k strings EmptyString))
       = Ok (nth k distances nan)) /\
    spatial_distance_cosine query query = Ok (nth src distances nan).
Proof.
  destruct (recommendations_distances _ _ _ _ _ returned)
    as [query' [ds [Hq [Hlen [Hidx Hds]]]]].
  assert (query' = query) by congruence. subst query'.
  exists ds. repeat split; try assumption.
  destruct source_position as [Hlt Hsrc].
  rewrite <- Hsrc at 2. now apply Hds.
Qed.

(** The source string comes first when it is strictly nearer to itself
    than every other string is to it. *)
Lemma source_strictly_nearest_first (d0 : float) :
  spatial_distance_cosine query query = Ok d0 ->
  (forall k dk, k < length strings -> k <> src ->
     spatial_distance_cosine query
       (embedding_from_string (nth k strings EmptyString)) = Ok dk ->
     (d0 <? dk)%float = true) ->
  hd_error indices = Some src.
Proof.
  intros Hd0 Hbest.
  destruct source_ranked as [ds [Hlen [-> [Hds Hsrc]]]].
  assert (d0 = nth src ds nan) by congruence. subst d0.
  destruct source_position as [Hlt _].
  destruct (argsort_ok ds) as [Hperm Hsorted].
  assert (Hin : In src (argsort ds)).
  { apply (Permutation_in _ (Permutation_sym Hperm)), in_seq. lia. }
  destruct (argsort ds) as [|j0 rest]; [destruct Hin|]. simpl.
  destruct (Nat.eq_dec j0 src) as [->|Hne]; [reflexivity|exfalso].
  destruct Hin as [Heq|Hin]; [contradiction|].
  assert (Hj0 : j0 < length strings).
  { pose proof (Permutation_in _ Hperm (or_introl eq_refl)) as Hj.
    apply in_seq in Hj. lia. }
  specialize (Hbest j0 (nth j0 ds nan) Hj0 Hne (Hds j0 Hj0)).
  simpl in Hsorted. apply StronglySorted_inv in Hsorted.
  destruct Hsorted as [_ Hall]. rewrite Forall_forall in Hall.
  assert (Hle : np.sort_le (nth j0 ds nan) (nth src ds nan) = true).
  { apply Hall. unfold np.take.
    exact (in_map (fun k => nth k ds nan) rest src Hin). }
  unfold np.sort_le in Hle.
  rewrite (ltb_not_nan_l _ _ Hbest), (ltb_not_leb _ _ Hbest) in Hle.
  discriminate.
Qed.

(** When the source string is at distance 0 from itself, whatever is
    ranked before it is at distance 0 from it as well. *)
Lemma source_at_zero_preceded_by_zero (d0 dk : float) (a b : nat) :
  spatial_distance_cosine query query = Ok d0 ->
  (d0 =? 0)%float = true ->
  a < b < length indices ->
  nth b indices 0 = src ->
  spatial_distance_cosine query
    (embedding_from_string (nth (nth a indices 0) strings EmptyString)) = Ok dk ->
  (dk =? 0)%float = true.
Proof.
  intros Hd0 Hzero Hab Hb Hdk.
  destruct source_ranked as [ds [Hlen [Hidx [Hds Hsrc]]]].
  assert (d0 = nth src ds nan) by congruence. subst d0.
  destruct (argsort_ok ds) as [Hperm Hsorted]. rewrite <- Hidx in Hperm, Hsorted.
  assert (Ha : nth a indices 0 < length strings).
  { rewrite <- Hlen. pose proof (Permutation_seq_bound _ _ Hperm) as Hbd.
    rewrite Forall_forall in Hbd. apply Hbd, nth_In. lia. }
  assert (dk = nth (nth a indices 0) ds nan).
  { specialize (Hds _ Ha). congruence. }
  subst dk.
  pose proof (StronglySorted_nth _ nan _ a b Hsorted) as Hle.
  rewrite take_length in Hle. specialize (Hle Hab).
  rewrite !take_nth in Hle by lia. rewrite Hb in Hle.
  destruct (eqb_leb _ _ Hzero) as [H0le Hle0].
  destruct (leb_true_not_nan _ _ H0le) as [Hnan _].
  unfold np.sort_le in Hle. rewrite Hnan in Hle. simpl in Hle.
  pose proof (float_leb_trans _ _ _ Hle H0le) as Hk0.
  destruct (leb_true_not_nan _ _ Hk0) as [Hknan _].
  destruct (spatial_distance_cosine_range _ _ _ (Hds _ Ha)) as [Hn|[Hge _]];
    [congruence|].
  now apply leb_antisym.
Qed.

End SourceString.

(** C7, as the code has it.  In [search_reviews] and [search_functions]
    (for [n > 0]) a candidate whose computed similarity is strictly greater
    than that of every other row is the first row of the result.  In
    [recommendations_from_strings], where the query is the embedding of the
    source string, the source string comes first when its distance from
    itself is strictly smaller than the distance of every other string;
    and when its distance from itself is 0, every string ranked before it
    is at distance 0 as well.  A candidate that equals the query is ranked
    by what is computed for it, like every other candidate. *)
Theorem strictly_most_similar_candidate_first :
  forall (get_embedding embedding_from_string : string -> vector)
         (argsort : list float -> list nat),
    argsort_spec argsort ->
    (forall df q n df' res i c,
        search_reviews get_embedding argsort df q n = (df', Ok res) ->
        (0 < default_n n)%Z ->
        nth_error df' i = Some c ->
        (forall j r, j <> i -> nth_error df' j = Some r ->
                     (similarity r <? similarity c)%float = true) ->
        hd_error res = Some c) /\
    (forall df q n df' res i c,
        search_functions get_embedding argsort df q n = (df', Ok res) ->
        (0 < default_n n)%Z ->
        nth_error df' i = Some c ->
        (forall j r, j <> i -> nth_error df' j = Some r ->
                     (similarity r <? similarity c)%float = true) ->
        hd_error res = Some c) /\
    (forall strings i indices query,
        recommendations_from_strings embedding_from_string argsort strings i
          = Ok indices ->
        getitem (map embedding_from_string strings) i = Ok query ->
        let src :=
          Z.to_nat (if (i <? 0)%Z then i + Z.of_nat (length strings) else i) in
        exists d0,
          spatial_distance_cosine query query = Ok d0 /\
          ((forall k dk, k < length strings -> k <> src ->
              spatial_distance_cosine query
                (embedding_from_string (nth k strings EmptyString)) = Ok dk ->
              (d0 <? dk)%float = true) ->
           hd_error indices = Some src) /\
          ((d0 =? 0)%float = true ->
           forall a b dk, a < b < length indices ->
             nth b indices 0 = src ->
             spatial_distance_cosine query
               (embedding_from_string
                  (nth (nth a indices 0) strings EmptyString)) = Ok dk ->
             (dk =? 0)%float = true)).
Proof.
  intros ge efs argsort Hspec. split; [|split].
  - intros df q n df' res i c H Hn Hc Hbest.
    eapply search_strict_maximum_first; eassumption.
  - intros df q n df' res i c H Hn Hc Hbest.
    eapply search_strict_maximum_first; eassumption.
  - intros strings i indices query Hret Hq src.
    destruct (source_ranked efs argsort strings i indices query Hret Hq)
      as [ds [_ [_ [_ Hd0]]]].
    exists (nth src ds nan). split; [exact Hd0|]. split.
    + intros Hbest.
      exact (source_strictly_nearest_first efs argsort Hspec strings i indices
               query Hret Hq _ Hd0 Hbest).
    + intros Hzero a b dk Hab Hb Hdk.
      exact (source_at_zero_preceded_by_zero efs argsort Hspec strings i indices
               query Hret Hq _ dk a b Hd0 Hzero Hab Hb Hdk).
Qed.

Lemma strictly_most_similar_candidate_first_witness :
  let df' := [ranked "a" [1; 0] 1; ranked "b" [0; 1] 0;
              ranked "c" [1; 1] (1 / (sqrt 2 * 1))]%float in
  argsort_spec insertion_argsort /\
  (0 < default_n (Some 2%Z))%Z /\
  nth_error df' 0 = Some (ranked "a" [1; 0]%float 1%float) /\
  (forall j r, j <> 0 -> nth_error df' j = Some r ->
               (similarity r <? similarity (ranked "a" [1; 0] 1))%float = true) /\
  hd_error [ranked "a" [1; 0] 1; ranked "c" [1; 1] (1 / (sqrt 2 * 1))]%float
    = Some (ranked "a" [1; 0]%float 1%float) /\
  (forall k dk, k < length ["a"; "b"; "c"]%string -> k <> 0 ->
     spatial_distance_cosine [1; 0]%float
       (example_embedding_from_string (nth k ["a"; "b"; "c"]%string EmptyString))
       = Ok dk ->
     (0 <? dk)%float = true) /\
  hd_error [0; 2; 1] = Some 0.
Proof.
  intros df'.
  assert (Hbest : forall j r, j <> 0 -> nth_error df' j = Some r ->
            (similarity r <? similarity (ranked "a" [1; 0] 1))%float = true).
  { intros [|[|[|j]]] r Hj Hr; [contradiction| | |].
    - inversion Hr. reflexivity.
    - inversion Hr. reflexivity.
    - destruct j; discriminate. }
  assert (Hnear : forall k dk, k < length ["a"; "b"; "c"]%string -> k <> 0 ->
     spatial_distance_cosine [1; 0]%float
       (example_embedding_from_string (nth k ["a"; "b"; "c"]%string EmptyString))
       = Ok dk ->
     (0 <? dk)%float = true).
  { intros [|[|[|k]]] dk Hk Hne Hdk; [contradiction| | |simpl in Hk; lia].
    - inversion Hdk. reflexivity.
    - inversion Hdk. reflexivity. }
  pose proof (strictly_most_similar_candidate_first example_embedding
                example_embedding_from_string insertion_argsort
                insertion_argsort_spec) as [Hsearch [_ Hrec]].
  split; [exact insertion_argsort_spec|].
  split; [reflexivity|]. split; [reflexivity|]. split; [exact Hbest|].
  split.
  { exact (Hsearch example_df "query"%string (Some 2%Z) df' _ 0 _
             eq_refl eq_refl eq_refl Hbest). }
  split; [exact Hnear|].
  destruct (Hrec ["a"; "b"; "c"]%string 0%Z [0; 2; 1] [1; 0]%float
              eq_refl eq_refl) as [d0 [Hd0 [Hfirst _]]].
  apply Hfirst. inversion Hd0. exact Hnear.
Defined.

(** C7 as stated fails.  In [recommendations_from_strings] the strings
    "p" and "s", embedded as the parallel vectors [[3, 3]] and [[1, 1]],
    are at distance 0 from each other: whichever of them is the source
    string, the kernel gets the distances [[0, 0]] and puts the same
    position first, so that one of the two sources is not first; with
    insertion sort it is "s".  In [search_reviews] two rows with the vector
    of the query cannot both be the first row, and the row [[3, 3]], whose
    similarity with the query [[1, 1]] is rounded to 1, is ranked before
    the row [[1, 1]], whose similarity is rounded below 1. *)
Lemma equal_candidate_not_first_counterexample :
  source_distances parallel_embedding_from_string ["p"; "s"]%string 0
    = Ok [0; 0]%float /\
  source_distances parallel_embedding_from_string ["p"; "s"]%string 1
    = Ok [0; 0]%float /\
  ~ (exists argsort,
       forall i, In i [0; 1] ->
         exists indices,
           recommendations_from_strings parallel_embedding_from_string argsort
             ["p"; "s"]%string (Z.of_nat i) = Ok indices /\
           hd_error indices = Some i) /\
  recommendations_from_strings parallel_embedding_from_string insertion_argsort
    ["p"; "s"]%string 1 = Ok [0; 1] /\
  (forall c, In c tie_df -> ada_embedding c = example_embedding "query") /\
  ~ (exists argsort,
       forall c, In c tie_df ->
         exists df' res,
           search_reviews example_embedding argsort tie_df "query" None
             = (df', Ok res) /\
           option_map label (hd_error res) = Some (label c)) /\
  (exists df',
     search_reviews (fun _ => [1; 1]%float) insertion_argsort
       [candidate "same" [1; 1]; candidate "other" [3; 3]]%float "query" None
     = (df', Ok [ranked "other" [3; 3] 1;
                 ranked "same" [1; 1] (2 / (sqrt 2 * sqrt 2))]%float)) /\
  (2 / (sqrt 2 * sqrt 2) <? 1)%float = true.
Proof.
  split; [reflexivity|]. split; [reflexivity|].
  split.
  { intros [argsort H].
    destruct (H 0 (or_introl eq_refl)) as [idx0 [H0 Hhd0]].
    destruct (H 1 (or_intror (or_introl eq_refl))) as [idx1 [H1 Hhd1]].
    assert (Hsame : idx0 = idx1).
    { change (Ok (argsort [0; 0]%float) = Ok idx0) in H0.
      change (Ok (argsort [0; 0]%float) = Ok idx1) in H1. congruence. }
    subst idx1. rewrite Hhd0 in Hhd1. discriminate. }
  split; [reflexivity|].
  split.
  { intros c [<-|[<-|[]]]; reflexivity. }
  split.
  { intros [argsort H].
    destruct (H (candidate "a" [1; 0]%float) (or_introl eq_refl))
      as [df1 [res1 [H1 Ha]]].
    destruct (H (candidate "b" [1; 0]%float) (or_intror (or_introl eq_refl)))
      as [df2 [res2 [H2 Hb]]].
    rewrite H1 in H2. inversion H2; subst.
    rewrite Ha in Hb. discriminate. }
  split; [eexists; reflexivity|].
  reflexivity.
Qed.

(** * Ties *)

Section InsertionSortStable.

Variable a : list float.

Let key (i : nat) : float := nth i a nan.
Let R (i j : nat) : Prop :=
  np.sort_le (key i) (key j) = true /\
  (np.sort_le (key j) (key i) = true -> i < j).

Lemma insert_stable (i : nat) (l : list nat) :
  StronglySorted R l -> Forall (fun j => i < j) l ->
  StronglySorted R (insert key np.sort_le i l).
Proof.
  induction 1 as [|j l Hl IH Hj]; simpl; intros Hlt; [repeat constructor|].
  apply Forall_cons_iff in Hlt. destruct Hlt as [Hij Hlt].
  destruct (np.sort_le (key i) (key j)) eqn:Hle.
  - constructor; [now constructor|].
    constructor; [split; [exact Hle|intros _; exact Hij]|].
    rewrite Forall_forall in *. intros k Hk. split.
    + eapply sort_le_trans; [exact Hle|]. now apply Hj.
    + intros _. now apply Hlt.
  - constructor; [now apply IH|].
    apply (Permutation_Forall
             (Permutation_sym (insert_Permutation key np.sort_le i l))).
    constructor; [|exact Hj].
    split; [now apply sort_le_false|]. intros H. congruence.
Qed.

Lemma isort_seq_stable (s len : nat) :
  StronglySorted R (isort key np.sort_le (seq s len)).
Proof.
  revert s. induction len as [|len IH]; intros s; simpl; [constructor|].
  apply insert_stable; [apply IH|].
  apply (Permutation_Forall
           (Permutation_sym (isort_Permutation key np.sort_le (seq (S s) len)))).
  apply Forall_forall. intros j Hj. apply in_seq in Hj. lia.
Qed.

End InsertionSortStable.

Lemma insertion_argsort_stable : argsort_stable insertion_argsort.
Proof. intros a. apply isort_seq_stable. Qed.

Lemma filter_seq_increasing (p : nat -> bool) (s len : nat) :
  StronglySorted lt (filter p (seq s len)).
Proof.
  revert s. induction len as [|len IH]; intros s; simpl; [constructor|].
  destruct (p s); [|apply IH].
  constructor; [apply IH|].
  apply Forall_forall. intros j Hj. apply filter_In in Hj.
  destruct Hj as [Hj _]. apply in_seq in Hj. lia.
Qed.

Section NargsortStable.

Variable argsort : list float -> list nat.
Hypothesis argsort_ok : argsort_spec argsort.
Hypothesis argsort_keeps_order : argsort_stable argsort.

Variable items : list float.

Let key (i : nat) : float := nth i items nan.

(** Descending by key, the NaN last, and by position among equal keys. *)
Let Rdesc (i j : nat) : Prop :=
  ranks_before (key i) (key j) = true /\
  (ranks_before (key j) (key i) = true -> i < j).

Lemma nargsort_desc_stable :
  StronglySorted Rdesc (nargsort_desc argsort items).
Proof.
  unfold nargsort_desc.
  set (nn := filter (fun i => negb (is_nan (nth i items nan)))
                    (seq 0 (length items))).
  set (na := filter (fun i => is_nan (nth i items nan)) (seq 0 (length items))).
  set (non_nans := rev (np.take nan items nn)).
  set (L := rev nn).
  assert (Hnn : forall i, In i nn -> is_nan (key i) = false).
  { intros i Hi. apply filter_In in Hi. now apply negb_true_iff. }
  assert (Hna : forall i, In i na -> is_nan (key i) = true).
  { intros i Hi. now apply filter_In in Hi. }
  assert (Hkeys : non_nans = np.take nan items L).
  { unfold non_nans, L. now rewrite take_rev. }
  assert (HlenL : length non_nans = length L).
  { now rewrite Hkeys, take_length. }
  destruct (argsort_ok non_nans) as [Hperm _]. rewrite HlenL in Hperm.
  pose proof (Permutation_seq_bound _ _ Hperm) as Hbound.
  rewrite Forall_forall in Hbound.
  assert (HL : StronglySorted (fun x y => y < x) L).
  { apply StronglySorted_rev, filter_seq_increasing. }
  assert (Hkey : forall j, j < length L -> nth j non_nans nan = key (nth j L 0)).
  { intros j Hj. rewrite Hkeys. now apply take_nth. }
  apply StronglySorted_app.
  - (* the numbers *)
    pose proof (argsort_keeps_order non_nans) as Hst.
    apply StronglySorted_rev.
    change (np.take 0 L (argsort non_nans))
      with (map (fun j => nth j L 0) (argsort non_nans)).
    apply StronglySorted_map.
    eapply StronglySorted_weaken; [|exact Hst].
    intros j j' Hj Hj' [Hle Htie]. simpl.
    pose proof (Hbound _ Hj) as Hjb. pose proof (Hbound _ Hj') as Hjb'.
    rewrite !Hkey in Hle, Htie by assumption.
    assert (Hn : is_nan (key (nth j L 0)) = false).
    { apply Hnn, in_rev. fold L. now apply nth_In. }
    assert (Hn' : is_nan (key (nth j' L 0)) = false).
    { apply Hnn, in_rev. fold L. now apply nth_In. }
    unfold np.sort_le in Hle, Htie. rewrite Hn' in Hle. rewrite Hn in Htie.
    simpl in Hle, Htie. unfold Rdesc, ranks_before. rewrite Hn, Hn'. simpl.
    split; [exact Hle|]. intros Hge. specialize (Htie Hge).
    exact (StronglySorted_nth _ 0 L j j' HL (conj Htie Hjb')).
  - (* the NaN *)
    assert (Hinc : StronglySorted lt na) by apply filter_seq_increasing.
    eapply StronglySorted_weaken; [|exact Hinc].
    intros i j Hi Hj Hij. split; [|intros _; exact Hij].
    unfold ranks_before. now rewrite (Hna j Hj).
  - intros i j Hi Hj.
    assert (Hn : is_nan (key i) = false).
    { apply in_rev in Hi. unfold np.take in Hi. apply in_map_iff in Hi.
      destruct Hi as [k [<- Hk]]. apply Hnn, in_rev. fold L.
      apply nth_In. now apply Hbound. }
    split.
    + unfold ranks_before. now rewrite (Hna j Hj).
    + unfold ranks_before. rewrite Hn, (leb_nan_r _ _ (Hna j Hj)). discriminate.
Qed.

End NargsortStable.

Lemma nth_firstn_lt {A : Type} (d : A) (k u : nat) (l : list A) :
  u < length (firstn k l) -> nth u (firstn k l) d = nth u l d.
Proof.
  revert u l. induction k as [|k IH]; intros u [|x l]; simpl; intros Hu;
    try lia; try reflexivity.
  destruct u as [|u]; [reflexivity|]. apply IH. lia.
Qed.

Lemma search_ties
    (get_embedding : string -> vector) (argsort : list float -> list nat)
    (column : Row -> vector) (df : DataFrame) (q : string) (n : option Z)
    (df' res : DataFrame) (u v : nat) :
  argsort_spec argsort -> argsort_stable argsort ->
  search get_embedding argsort column df q n = (df', Ok res) ->
  u < v < length res ->
  (similarity (nth u res empty_row) =? similarity (nth v res empty_row))%float
    = true \/
  (is_nan (similarity (nth u res empty_row)) = true /\
   is_nan (similarity (nth v res empty_row)) = true) ->
  exists pu pv,
    pu < pv /\
    nth_error df' pu = Some (nth u res empty_row) /\
    nth_error df' pv = Some (nth v res empty_row).
Proof.
  intros Hspec Hstable H Huv Htie.
  apply search_Ok_inv in H. destruct H as [values [_ [_ [_ ->]]]].
  unfold sort_values_similarities_desc in *.
  set (idx := nargsort_desc argsort (map similarity df')) in *.
  destruct (head_firstn (default_n n) (np.take empty_row df' idx)) as [k Hk].
  rewrite Hk in *.
  assert (Hlen : length (firstn k (np.take empty_row df' idx)) <= length idx).
  { rewrite length_firstn, take_length. lia. }
  rewrite !nth_firstn_lt in * by lia.
  rewrite !take_nth in * by lia.
  pose proof (nargsort_desc_Permutation argsort Hspec (map similarity df'))
    as Hperm. fold idx in Hperm. rewrite length_map in Hperm.
  pose proof (Permutation_seq_bound _ _ Hperm) as Hbound.
  rewrite Forall_forall in Hbound.
  assert (Hpu : nth u idx 0 < length df') by (apply Hbound, nth_In; lia).
  assert (Hpv : nth v idx 0 < length df') by (apply Hbound, nth_In; lia).
  exists (nth u idx 0), (nth v idx 0).
  split; [|split; now apply nth_error_nth'].
  pose proof (nargsort_desc_stable argsort Hspec Hstable (map similarity df'))
    as Hst. fold idx in Hst.
  destruct (StronglySorted_nth _ 0 idx u v Hst) as [_ Horder]; [lia|].
  apply Horder.
  change nan with (similarity empty_row). rewrite !map_nth.
  unfold ranks_before. destruct Htie as [Heq|[Hnan _]].
  - destruct (eqb_leb _ _ Heq) as [Hle _]. rewrite Hle. apply orb_true_r.
  - now rewrite Hnan.
Qed.



